(** * zun.cni.binding.base: binding orchestration

    A shallow embedding of [zun/cni/binding/base.py]: the functions
    [_get_binding_driver], [get_ipdb], [_enable_ipv6], [_configure_l3],
    [_need_configure_l3], [connect] and [disconnect], written in a small
    state-and-exception monad.

    The state is what the Python code acts on through its libraries: the
    sequence of library calls made so far (the trace) and the network
    namespace the executing process is in.  Whether a library call raises is
    decided by the environment, a function of the calls made so far and the
    call being made; results are stated for every environment. *)

From Stdlib Require Import ZArith.
From stdpp Require Import base gmap strings list pretty.


(** ** Data *)

(** [route] entries of a subnet: [route['gateway']], [route['cidr']]. *)
Record Route := mkRoute {
  route_gateway : string;
  route_cidr : string
}.

(** [subnet['cidr']]: the code reads ['version'] and ['prefixlen']. *)
Record Cidr := mkCidr {
  cidr_version : Z;
  cidr_prefixlen : Z
}.

(** An entry of [subnet['ips']]. *)
Record FixedIP := mkFixedIP {
  fip_address : string
}.

(** A subnet of [vif_dict['network']['subnets']]; [subnet_gateway] is [None]
    when the key ['gateway'] is not in the dict. *)
Record Subnet := mkSubnet {
  subnet_cidr : Cidr;
  subnet_ips : list FixedIP;
  subnet_routes : list Route;
  subnet_gateway : option string
}.

Record Network := mkNetwork {
  network_subnets : list Subnet
}.

(** The plain dict made of a VIF by [utils.osvif_vif_to_dict]. *)
Record VifDict := mkVifDict {
  vd_network : Network
}.

(** The os_vif object: [vif_type_name] is [type(vif).__name__];
    [vif_physnet] is [None] when the object has no attribute [physnet]. *)
Record VIF := mkVIF {
  vif_type_name : string;
  vif_physnet : option string;
  vif_network : Network
}.

(** Opaque to this module, handed on to os_vif. *)
Definition InstanceInfo := string.

(** A binding driver loaded by stevedore, identified by its entry point. *)
Definition Driver := string.

(** Exceptions. *)
Inductive Exn :=
  | KeyError (key : string)
  | NetlinkError (code : Z)
  | UnboundLocalError (name : string)
  | NoMatches (namespace name : string)
  | OtherError (msg : string).

Definition EEXIST : Z := 17.

(** Network namespaces of the executing process. *)
Inductive Ns :=
  | HostNs
  | NamedNs (netns : string).

(** The argument of [pyroute_netns.setns]: a namespace path (or [None]), or
    an open file of a namespace. *)
Inductive NsHandle :=
  | NsByName (netns : option string)
  | NsByFile (ns : Ns).

Inductive LogLevel := LDebug | LInfo | LException.

Inductive LogArg :=
  | LStr (s : string)
  | LVif (vif : VIF)
  | LVifDict (vif_dict : VifDict).

(** Calls that leave this module, and two markers ([CallEnableIPv6],
    [CallConfigureL3]) for calls of its own functions. *)
Inductive Event :=
  (* zun.cni.utils *)
  | ConvertNetns (netns : option string)
  | OsvifVifToDict (vif : VIF)
  (* stevedore *)
  | DriverManager (namespace name : string)
  (* os_vif *)
  | Plug (vif : VIF) (instance_info : InstanceInfo)
  | Unplug (vif : VIF) (instance_info : InstanceInfo)
  (* the binding driver *)
  | DriverConnect (driver : Driver) (vif : VIF) (ifname : string)
      (netns : option string) (container_id : option string)
  | DriverDisconnect (driver : Driver) (vif : VIF) (ifname : string)
      (netns : option string) (container_id : option string)
  (* the privileged entry point *)
  | CallConfigureL3 (vif_dict : VifDict) (ifname : string)
      (netns : option string) (is_default_gateway : bool)
  (* pyroute2 *)
  | NetNS (netns : string)
  | IPDB (in_netns : bool)
  | ReleaseIPDB
  | IfaceLookup (ifname : string)
  | AddIp (ifname : string) (ip : string)
  | IfaceCommit (ifname : string)
  | RouteAdd (gateway dst : string)
  | DefaultRouteAdd (gateway : string)
  | Setns (target : NsHandle)
  (* _enable_ipv6 and the files it opens *)
  | CallEnableIPv6 (netns : option string)
  | OpenFile (path : option string) (mode : string)
  | WriteFile (path : option string) (data : string)
  | CloseFile (path : option string)
  (* LOG *)
  | Log (level : LogLevel) (fmt : string) (args : list LogArg).

(** ** The state and the monad *)

Record World := mkWorld {
  trace : list Event;
  active_ns : Ns
}.

Definition record (ev : Event) (w : World) : World :=
  mkWorld (trace w ++ [ev]) (active_ns w).

Definition enter (ns : Ns) (w : World) : World :=
  mkWorld (trace w) ns.

Inductive Res (A : Type) :=
  | Ok (a : A)
  | Raise (e : Exn).
Arguments Ok {A} a.
Arguments Raise {A} e.

Definition M (A : Type) : Type := World -> Res A * World.

Definition ret {A} (a : A) : M A := fun w => (Ok a, w).

Definition raise {A} (e : Exn) : M A := fun w => (Raise e, w).

Definition bind {A B} (m : M A) (k : A -> M B) : M B :=
  fun w =>
    match m w with
    | (Ok a, w1) => k a w1
    | (Raise e, w1) => (Raise e, w1)
    end.

Notation "'let*' x ':=' m 'in' k" := (bind m (fun x => k))
  (at level 10, x name, m at level 100, k at level 200, only parsing).
Notation "m >> k" := (bind m (fun _ => k))
  (at level 100, k at level 200, right associativity, only parsing).

(** [try: body finally: fin]: [fin] always runs; an exception of [fin]
    replaces the outcome of [body]. *)
Definition try_finally {A} (body : M A) (fin : M unit) : M A :=
  fun w =>
    let '(r, w1) := body w in
    match fin w1 with
    | (Ok _, w2) => (r, w2)
    | (Raise e, w2) => (Raise e, w2)
    end.

(** [try: body except: handler]. *)
Definition try_except {A} (body : M A) (handler : Exn -> M A) : M A :=
  fun w =>
    match body w with
    | (Ok a, w1) => (Ok a, w1)
    | (Raise e, w1) => handler e w1
    end.

(** [for x in l: body]. *)
Fixpoint for_each {A} (l : list A) (body : A -> M unit) : M unit :=
  match l with
  | [] => ret tt
  | x :: l' => body x >> for_each l' body
  end.

(** Something that cannot raise: a marker, a log line, a release. *)
Definition emit (ev : Event) : M unit := fun w => (Ok tt, record ev w).

(** The exception raised by the outcome, if any. *)
Definition raised {A} (r : Res A) : option Exn :=
  match r with
  | Ok _ => None
  | Raise e => Some e
  end.

(** The namespace a successful [setns] leaves the process in. *)
Definition setns_target (h : NsHandle) (cur : Ns) : Ns :=
  match h with
  | NsByName (Some p) => NamedNs p
  | NsByName None => cur
  | NsByFile ns => ns
  end.

Definition _BINDING_NAMESPACE : string := "zun.cni.binding".

(** ['%s/%s' % (address, prefixlen)]. *)
Definition format_ip (address : string) (prefixlen : Z) : string :=
  address +:+ "/" +:+ pretty prefixlen.

(** ** Reading a trace *)

Definition is_enable_ipv6 (ev : Event) : bool :=
  match ev with CallEnableIPv6 _ => true | _ => false end.

Definition is_add_ip (ev : Event) : bool :=
  match ev with AddIp _ _ => true | _ => false end.

Definition is_default_route_add (ev : Event) : bool :=
  match ev with DefaultRouteAdd _ => true | _ => false end.

Definition is_route_add (ev : Event) : bool :=
  match ev with RouteAdd _ _ | DefaultRouteAdd _ => true | _ => false end.

(** What [_enable_ipv6] does. *)
Definition is_ipv6_event (ev : Event) : bool :=
  match ev with
  | CallEnableIPv6 _ | ConvertNetns _ | OpenFile _ _ | WriteFile _ _
  | CloseFile _ | Setns _ => true
  | _ => false
  end.

(** Everything [_configure_l3] does in or for the namespace: the entry
    itself, the IPDB handle, addresses, routes, the namespace switch and the
    [disable_ipv6] file. *)
Definition is_l3_event (ev : Event) : bool :=
  match ev with
  | CallConfigureL3 _ _ _ _ | NetNS _ | IPDB _ | ReleaseIPDB | IfaceLookup _
  | AddIp _ _ | IfaceCommit _ | RouteAdd _ _ | DefaultRouteAdd _ | Setns _
  | CallEnableIPv6 _ | OpenFile _ _ | WriteFile _ _ | CloseFile _ => true
  | _ => false
  end.

Definition count_events (p : Event -> bool) (evs : list Event) : nat :=
  length (List.filter p evs).

Definition is_ipv6 (subnet : Subnet) : bool :=
  Z.eqb (cidr_version (subnet_cidr subnet)) 6.

Definition has_gateway (subnet : Subnet) : bool :=
  match subnet_gateway subnet with Some _ => true | None => false end.

Definition ipv6_subnets (subnets : list Subnet) : nat :=
  length (List.filter is_ipv6 subnets).

Definition gateway_subnets (subnets : list Subnet) : nat :=
  length (List.filter has_gateway subnets).

(** The [add_ip] calls of one subnet and of all subnets, in order. *)
Definition subnet_add_ips (ifname : string) (subnet : Subnet) : list Event :=
  List.map (fun fip =>
         AddIp ifname
           (format_ip (fip_address fip) (cidr_prefixlen (subnet_cidr subnet))))
    (subnet_ips subnet).

Definition all_add_ips (ifname : string) (subnets : list Subnet) : list Event :=
  List.flat_map (subnet_add_ips ifname) subnets.

(** [ip] is an address of a subnet that is not IPv6. *)
Definition of_non_ipv6_subnet (subnets : list Subnet) (ip : string) : Prop :=
  exists subnet fip,
    subnet ∈ subnets /\ is_ipv6 subnet = false /\ fip ∈ subnet_ips subnet /\
    ip = format_ip (fip_address fip) (cidr_prefixlen (subnet_cidr subnet)).

(** The debug line of lines 99-102. *)
Definition default_route_exists_log (vif_dict : VifDict) (gateway : string) : Event :=
  Log LDebug
    ("Default route already exists in " +:+
     "capsule/container for vif=%s. Did not " +:+
     "overwrite with requested gateway=%s")
    [LVifDict vif_dict; LStr gateway].

(** ** Sample inputs *)

Definition env_ok : list Event -> Event -> option Exn := fun _ _ => None.

(** The write to [disable_ipv6] is refused. *)
Definition env_write_refused : list Event -> Event -> option Exn :=
  fun _ ev =>
    match ev with
    | WriteFile _ _ => Some (OtherError "PermissionError")
    | _ => None
    end.

(** Every default route is already there. *)
Definition env_default_exists : list Event -> Event -> option Exn :=
  fun _ ev =>
    match ev with
    | DefaultRouteAdd _ => Some (NetlinkError EEXIST)
    | _ => None
    end.

Definition subnet_v4 : Subnet :=
  mkSubnet (mkCidr 4 24) [mkFixedIP "10.0.0.5"]
    [mkRoute "10.0.0.1" "192.168.0.0/16"] (Some "10.0.0.1").

Definition subnet_v6 : Subnet :=
  mkSubnet (mkCidr 6 64) [mkFixedIP "fd00::5"] [] (Some "fd00::1").

Definition subnet_v6' : Subnet :=
  mkSubnet (mkCidr 6 64) [mkFixedIP "fd01::5"] [] None.

Definition vif_bridge (subnets : list Subnet) : VIF :=
  mkVIF "VIFBridge" None (mkNetwork subnets).

Definition vif_sriov (subnets : list Subnet) : VIF :=
  mkVIF "VIFSriov" (Some "physnet1") (mkNetwork subnets).

Definition snapshot (vif : VIF) : VifDict := mkVifDict (vif_network vif).

Definition world0 : World := mkWorld [] HostNs.

Definition sample_netns : option string := Some "/proc/4242/ns/net".

Definition physnet_table : gmap string string := {[ "physnet1" := "intel_vf" ]}.

Definition driver_table : gmap string string := {[ "intel_vf" := "vfio-pci" ]}.

Definition userspace_drivers : list string :=
  ["vfio-pci"; "uio"; "uio_pci_generic"; "igb_uio"].

Definition bridge_plugins : gset string := {[ "VIFBridge" ]}.

(** The namespace file of the process cannot be opened. *)
Definition env_open_refused : list Event -> Event -> option Exn :=
  fun _ ev =>
    match ev with
    | OpenFile _ "r" => Some (OtherError "OSError")
    | _ => None
    end.

(** Going back into the namespace of the process is refused, and so is the
    write to [disable_ipv6]. *)
Definition env_restore_refused : list Event -> Event -> option Exn :=
  fun _ ev =>
    match ev with
    | WriteFile _ _ => Some (OtherError "PermissionError")
    | Setns (NsByFile _) => Some (OtherError "OSError")
    | _ => None
    end.

(** Only going back into the namespace of the process is refused. *)
Definition env_way_back_refused : list Event -> Event -> option Exn :=
  fun _ ev =>
    match ev with
    | Setns (NsByFile _) => Some (OtherError "OSError")
    | _ => None
    end.

Section Binding.

(** The environment: given the calls made so far and the call being made,
    the exception it raises, if any. *)
Variable env : list Event -> Event -> option Exn.

(** Process-wide configuration ([CONF]) and constants ([consts]). *)
Variable sriov_physnet_resource_mappings : gmap string string.
Variable sriov_resource_driver_mappings : gmap string string.
Variable USERSPACE_DRIVERS : list string.

(** The entry points registered under [_BINDING_NAMESPACE]. *)
Variable plugins : gset string.

(** What [utils.convert_netns] and [utils.osvif_vif_to_dict] return. *)
Variable convert_netns_value : option string -> option string.
Variable osvif_vif_to_dict_value : VIF -> VifDict.

(** A call into a library: recorded, and raising if the environment says
    so. *)
Definition call (ev : Event) : M unit :=
  fun w =>
    match env (trace w) ev with
    | None => (Ok tt, record ev w)
    | Some e => (Raise e, record ev w)
    end.

(** [pyroute_netns.setns(h)]: on success the process is in the namespace
    [h] stands for. *)
Definition setns (h : NsHandle) : M unit :=
  fun w =>
    match env (trace w) (Setns h) with
    | None => (Ok tt, enter (setns_target h (active_ns w)) (record (Setns h) w))
    | Some e => (Raise e, record (Setns h) w)
    end.

Definition convert_netns (netns : option string) : M (option string) :=
  call (ConvertNetns netns) >> ret (convert_netns_value netns).

Definition osvif_vif_to_dict (vif : VIF) : M VifDict :=
  call (OsvifVifToDict vif) >> ret (osvif_vif_to_dict_value vif).

(** [open(path)] on the namespace file of the process itself: the file
    stands for the namespace the process is in when it is opened. *)
Definition open_ns_file (path : option string) : M Ns :=
  fun w =>
    match env (trace w) (OpenFile path "r") with
    | None => (Ok (active_ns w), record (OpenFile path "r") w)
    | Some e => (Raise e, record (OpenFile path "r") w)
    end.

(** [with open(path, 'w') as f: f.write(data)]. *)
Definition write_file (path : option string) (data : string) : M unit :=
  call (OpenFile path "w") >>
  try_finally (call (WriteFile path data)) (call (CloseFile path)).

(** stevedore's [DriverManager(namespace, name, invoke_on_load=True)]:
    [NoMatches] when nothing is registered under [name]; otherwise the
    plugin is loaded and instantiated, which may raise. *)
Definition _get_binding_driver (vif : VIF) : M Driver :=
  let name := vif_type_name vif in
  if bool_decide (name ∈ plugins) then
    call (DriverManager _BINDING_NAMESPACE name) >> ret name
  else
    emit (DriverManager _BINDING_NAMESPACE name) >>
    raise (NoMatches _BINDING_NAMESPACE name).

(** [if netns:] is false for [None] and for the empty string. *)
Definition get_ipdb (netns : option string) : M unit :=
  match netns with
  | Some p =>
      if negb (String.eqb p "") then call (NetNS p) >> call (IPDB true)
      else call (IPDB false)
  | None => call (IPDB false)
  end.

(** The [try] block of [_enable_ipv6].  Next to its outcome it gives the
    binding of the local [self_ns_fd] when the block is left ([None]: not
    bound). *)
Definition enable_ipv6_try (netns : option string)
  : World -> (Res unit * option Ns) * World :=
  fun w =>
    match convert_netns (Some "/proc/self/ns/net") w with
    | (Raise e, w1) => ((Raise e, None), w1)
    | (Ok path, w1) =>
        match open_ns_file path w1 with
        | (Raise e, w2) => ((Raise e, None), w2)
        | (Ok self_ns_fd, w2) =>
            let '(r, w3) :=
              (setns (NsByName netns) >>
               let* path :=
                 convert_netns (Some "/proc/sys/net/ipv6/conf/all/disable_ipv6") in
               write_file path "0") w2 in
            ((r, Some self_ns_fd), w3)
        end
    end.

(** The [finally] block of [_enable_ipv6]. *)
Definition enable_ipv6_finally (self_ns_fd : option Ns) : M unit :=
  match self_ns_fd with
  | Some fd => setns (NsByFile fd)
  | None => raise (UnboundLocalError "self_ns_fd")
  end.

Definition _enable_ipv6 (netns : option string) : M unit :=
  emit (CallEnableIPv6 netns) >>
  fun w =>
    let '((r, self_ns_fd), w1) := enable_ipv6_try netns w in
    match enable_ipv6_finally self_ns_fd w1 with
    | (Ok _, w2) => (r, w2)
    | (Raise e, w2) => (Raise e, w2)
    end.

(** Lines 83-85: the addresses of one subnet. *)
Definition add_ips (ifname : string) (subnet : Subnet) : M unit :=
  for_each (subnet_ips subnet) (fun fip =>
    call (AddIp ifname
            (format_ip (fip_address fip) (cidr_prefixlen (subnet_cidr subnet))))).

(** Lines 80-85: the first loop over the subnets. *)
Definition configure_addresses (subnets : list Subnet) (ifname : string)
    (netns : option string) : M unit :=
  for_each subnets (fun subnet =>
    (if Z.eqb (cidr_version (subnet_cidr subnet)) 6
     then _enable_ipv6 netns else ret tt) >>
    add_ips ifname subnet).

(** Lines 79-85: [with ipdb.interfaces[ifname] as iface]; the transaction
    is committed when the block is left without an exception. *)
Definition with_iface (subnets : list Subnet) (ifname : string)
    (netns : option string) : M unit :=
  call (IfaceLookup ifname) >>
  configure_addresses subnets ifname netns >>
  call (IfaceCommit ifname).

(** Lines 89-91: the routes of one subnet. *)
Definition add_routes (subnet : Subnet) : M unit :=
  for_each (subnet_routes subnet) (fun route =>
    call (RouteAdd (route_gateway route) (route_cidr route))).

(** Lines 92-102: the default route of one subnet. *)
Definition add_default_route (vif_dict : VifDict) (subnet : Subnet)
    (is_default_gateway : bool) : M unit :=
  if is_default_gateway then
    match subnet_gateway subnet with
    | Some gateway =>
        try_except (call (DefaultRouteAdd gateway)) (fun ex =>
          match ex with
          | NetlinkError code =>
              if negb (Z.eqb code EEXIST) then raise ex
              else
                emit (Log LDebug
                        ("Default route already exists in " +:+
                         "capsule/container for vif=%s. Did not " +:+
                         "overwrite with requested gateway=%s")
                        [LVifDict vif_dict; LStr gateway])
          | _ => raise ex
          end)
    | None => ret tt
    end
  else ret tt.

(** Lines 87-102: the second loop over the subnets. *)
Definition configure_routes (vif_dict : VifDict) (subnets : list Subnet)
    (is_default_gateway : bool) : M unit :=
  for_each subnets (fun subnet =>
    add_routes subnet >>
    add_default_route vif_dict subnet is_default_gateway).

(** [_configure_l3], entered through [privileged.cni.entrypoint]. *)
Definition _configure_l3 (vif_dict : VifDict) (ifname : string)
    (netns : option string) (is_default_gateway : bool) : M unit :=
  call (CallConfigureL3 vif_dict ifname netns is_default_gateway) >>
  get_ipdb netns >>
  try_finally
    (let subnets := network_subnets (vd_network vif_dict) in
     with_iface subnets ifname netns >>
     configure_routes vif_dict subnets is_default_gateway)
    (emit ReleaseIPDB).

Definition _need_configure_l3 (vif : VIF) : M bool :=
  match vif_physnet vif with
  | None => ret true
  | Some physnet =>
      match sriov_physnet_resource_mappings !! physnet with
      | None =>
          emit (Log LException "No resource name for physnet %s" [LStr physnet]) >>
          raise (KeyError physnet)
      | Some resource =>
          match sriov_resource_driver_mappings !! resource with
          | None =>
              emit (Log LException "No driver for resource_name %s" [LStr resource]) >>
              raise (KeyError resource)
          | Some driver_name =>
              if bool_decide (driver_name ∈ USERSPACE_DRIVERS) then
                emit (Log LInfo
                        ("_configure_l3 will not be called for vif %s " +:+
                         "because of it's driver")
                        [LVif vif]) >>
                ret false
              else ret true
          end
      end
  end.

Definition connect (vif : VIF) (instance_info : InstanceInfo)
    (ifname : string) (netns : option string) (is_default_gateway : bool)
    (container_id : option string) : M unit :=
  let* netns := convert_netns netns in
  let* driver := _get_binding_driver vif in
  call (Plug vif instance_info) >>
  call (DriverConnect driver vif ifname netns container_id) >>
  let* need := _need_configure_l3 vif in
  if need then
    let* vif_dict := osvif_vif_to_dict vif in
    _configure_l3 vif_dict ifname netns is_default_gateway
  else ret tt.

Definition disconnect (vif : VIF) (instance_info : InstanceInfo)
    (ifname : string) (netns : option string)
    (container_id : option string) : M unit :=
  let* driver := _get_binding_driver vif in
  call (DriverDisconnect driver vif ifname netns container_id) >>
  call (Unplug vif instance_info).


(** ** What a computation emits

    [emits m Q]: run from any world, [m] only appends to the trace, and
    its outcome and the events it appends satisfy [Q]. *)

Definition emits {A} (m : M A) (Q : Res A -> list Event -> Prop) : Prop :=
  forall w, exists evs, trace (m w).2 = trace w ++ evs /\ Q (m w).1 evs.

(** [m] emits events of the class [P] only. *)
Definition only (P : Event -> Prop) {A} (m : M A) : Prop :=
  emits m (fun _ evs => Forall P evs).

(** What [_enable_ipv6] does after it is entered. *)
Definition inner_ipv6_event (ev : Event) : Prop :=
  is_ipv6_event ev = true /\ is_enable_ipv6 ev = false.

(** Whether the outcome is a normal return. *)
Definition returned {A} (r : Res A) : bool :=
  match r with Ok _ => true | Raise _ => false end.

(** What one iteration of the first loop emits for [subnet]: the events of
    [_enable_ipv6] if the subnet is IPv6, then the [add_ip] calls of the
    subnet, all of them if the iteration ends normally ([ok]). *)
Definition address_chunk (ifname : string) (netns : option string)
    (subnet : Subnet) (ok : bool) (evs : list Event) : Prop :=
  exists en ads,
    evs = en ++ ads /\
    (if is_ipv6 subnet
     then exists rest, en = CallEnableIPv6 netns :: rest /\
                       Forall inner_ipv6_event rest
     else en = []) /\
    ads `prefix_of` subnet_add_ips ifname subnet /\
    (ok = true -> ads = subnet_add_ips ifname subnet).

(** What the first loop emits over [subnets]: one chunk per subnet, up to
    the subnet whose iteration raises, if any. *)
Inductive address_trace (ifname : string) (netns : option string)
  : list Subnet -> bool -> list Event -> Prop :=
  | address_trace_nil : address_trace ifname netns [] true []
  | address_trace_stop subnet subnets evs :
      address_chunk ifname netns subnet false evs ->
      address_trace ifname netns (subnet :: subnets) false evs
  | address_trace_cons subnet subnets ok evs1 evs2 :
      address_chunk ifname netns subnet true evs1 ->
      address_trace ifname netns subnets ok evs2 ->
      address_trace ifname netns (subnet :: subnets) ok (evs1 ++ evs2).

(** What [_configure_l3] does before the first loop, and from the commit of
    the addresses on. *)
Definition is_setup_event (ev : Event) : bool :=
  match ev with
  | CallConfigureL3 _ _ _ _ | NetNS _ | IPDB _ | IfaceLookup _ => true
  | _ => false
  end.

Definition is_tail_event (ev : Event) : bool :=
  match ev with
  | IfaceCommit _ | RouteAdd _ _ | DefaultRouteAdd _ | Log _ _ _
  | ReleaseIPDB => true
  | _ => false
  end.

(** The number of default routes the second loop can ask for. *)
Definition default_route_bound (subnets : list Subnet)
    (is_default_gateway : bool) : nat :=
  if is_default_gateway then gateway_subnets subnets else 0%nat.

(** What a call of [_configure_l3] emits: the set-up (entry, IPDB handle,
    interface), the first loop over the subnets ([ok]: it ended normally),
    and the rest (commit of the addresses, routes, release of the handle).
    Routes are added only after the first loop ended normally, and then
    the rest starts with the commit. *)
Definition l3_shape (ifname : string) (netns : option string)
    (subnets : list Subnet) (is_default_gateway : bool)
    (r : Res unit) (evs : list Event) : Prop :=
  exists setup addr tail ok,
    evs = setup ++ addr ++ tail /\
    Forall (fun ev => is_setup_event ev = true) setup /\
    ((addr = [] /\ ok = false) \/ address_trace ifname netns subnets ok addr) /\
    Forall (fun ev => is_tail_event ev = true) tail /\
    (count_events is_default_route_add tail <=
       default_route_bound subnets is_default_gateway)%nat /\
    (ok = false ->
       Forall (fun ev => is_route_add ev = false) tail /\ returned r = false) /\
    (ok = true -> exists tail', tail = IfaceCommit ifname :: tail').

Definition is_log (ev : Event) : bool :=
  match ev with Log _ _ _ => true | _ => false end.

(** The world [w] after the events [evs], in the same namespace. *)
Definition after (w : World) (evs : list Event) : World :=
  mkWorld (trace w ++ evs) (active_ns w).

(** The ways a call of [connect] can go, step by step: the step that raises
    ends the call, with the trace ending at that step. *)
Definition connect_steps (vif : VIF) (instance_info : InstanceInfo)
    (ifname : string) (netns : option string) (is_default_gateway : bool)
    (container_id : option string) (w : World) (run : Res unit * World) : Prop :=
  let netns' := convert_netns_value netns in
  let normalize := ConvertNetns netns in
  let resolve := DriverManager _BINDING_NAMESPACE (vif_type_name vif) in
  let plug := Plug vif instance_info in
  let driver_connect :=
    DriverConnect (vif_type_name vif) vif ifname netns' container_id in
  let snapshot := OsvifVifToDict vif in
  let bound := [normalize; resolve; plug; driver_connect] in
  (* normalizing [netns] raises *)
  (exists e, env (trace w) normalize = Some e /\
             run = (Raise e, after w [normalize])) \/
  (* resolving the driver raises *)
  (exists e, env (trace w) normalize = None /\
             _get_binding_driver vif (after w [normalize]) =
               (Raise e, after w [normalize; resolve]) /\
             run = (Raise e, after w [normalize; resolve])) \/
  (* os_vif.plug raises *)
  (exists e, env (trace w ++ [normalize; resolve]) plug = Some e /\
             run = (Raise e, after w [normalize; resolve; plug])) \/
  (* driver.connect raises *)
  (exists e, env (trace w ++ [normalize; resolve; plug]) driver_connect = Some e /\
             run = (Raise e, after w bound)) \/
  (* the L3 policy raises *)
  (exists e logs,
     _need_configure_l3 vif (after w bound) = (Raise e, after w (bound ++ logs)) /\
     Forall (fun ev => is_log ev = true) logs /\
     run = (Raise e, after w (bound ++ logs))) \/
  (* the L3 policy says no *)
  (exists logs,
     _need_configure_l3 vif (after w bound) = (Ok false, after w (bound ++ logs)) /\
     Forall (fun ev => is_log ev = true) logs /\
     run = (Ok tt, after w (bound ++ logs))) \/
  (* the L3 policy says yes, taking the snapshot raises *)
  (exists e,
     _need_configure_l3 vif (after w bound) = (Ok true, after w bound) /\
     env (trace w ++ bound) snapshot = Some e /\
     run = (Raise e, after w (bound ++ [snapshot]))) \/
  (* the L3 policy says yes: the call ends as [_configure_l3] does, run on
     the snapshot *)
  (_need_configure_l3 vif (after w bound) = (Ok true, after w bound) /\
   env (trace w ++ bound) snapshot = None /\
   run = _configure_l3 (osvif_vif_to_dict_value vif) ifname netns'
           is_default_gateway (after w (bound ++ [snapshot]))).

(** [physnet] of the VIF, or the resource it maps to, is not in its table;
    [key] is the key that is missing. *)
Definition missing_mapping (vif : VIF) (key : string) : Prop :=
  exists physnet,
    vif_physnet vif = Some physnet /\
    ((sriov_physnet_resource_mappings !! physnet = None /\ key = physnet) \/
     (exists resource,
        sriov_physnet_resource_mappings !! physnet = Some resource /\
        sriov_resource_driver_mappings !! resource = None /\
        key = resource)).

(** [m] leaves the process in the namespace it was in. *)
Definition keeps_ns {A} (m : M A) : Prop :=
  forall w, active_ns (m w).2 = active_ns w.

(** How the failure [e] of the route addition [ev] is dealt with, given the
    exception the computation ends with ([out]) and what it emits after
    [ev] ([rest]): a default route that exists already is logged and the
    computation goes on; any other failure ends it, with only [tail]
    emitted afterwards. *)
Definition route_failure_handled (vif_dict : VifDict) (tail : list Event)
    (ev : Event) (e : Exn) (out : option Exn) (rest : list Event) : Prop :=
  match ev with
  | RouteAdd _ _ => out = Some e /\ rest = tail
  | DefaultRouteAdd gateway =>
      (e = NetlinkError EEXIST ->
       exists rest', rest = default_route_exists_log vif_dict gateway :: rest') /\
      (e <> NetlinkError EEXIST -> out = Some e /\ rest = tail)
  | _ => True
  end.

(** [m] deals with the failures of route additions as above. *)
Definition handles (vif_dict : VifDict) (tail : list Event) {A} (m : M A)
  : Prop :=
  forall w, exists evs,
    trace (m w).2 = trace w ++ evs /\
    forall pre ev rest e,
      evs = pre ++ ev :: rest ->
      env (trace w ++ pre) ev = Some e ->
      route_failure_handled vif_dict tail ev e (raised (m w).1) rest.

(** [m] returns normally. *)
Definition succeeds {A} (m : M A) : Prop :=
  forall w, returned (m w).1 = true.

(** ** More ways to read a trace *)

(** The operations of [_configure_l3] on the interface and the route table. *)
Definition is_work (ev : Event) : bool :=
  match ev with
  | AddIp _ _ | IfaceCommit _ | RouteAdd _ _ | DefaultRouteAdd _ => true
  | _ => false
  end.

(** The route additions of one subnet, in order: its explicit routes, then
    its default route if one is asked for. *)
Definition subnet_route_adds (is_default_gateway : bool) (subnet : Subnet)
  : list Event :=
  List.map (fun route => RouteAdd (route_gateway route) (route_cidr route))
    (subnet_routes subnet) ++
  (if is_default_gateway then
     match subnet_gateway subnet with
     | Some gateway => [DefaultRouteAdd gateway]
     | None => []
     end
   else []).

Definition all_route_adds (is_default_gateway : bool) (subnets : list Subnet)
  : list Event :=
  List.flat_map (subnet_route_adds is_default_gateway) subnets.

(** What a call of [_configure_l3] has to do: every address, the commit,
    every route. *)
Definition l3_plan (ifname : string) (subnets : list Subnet)
    (is_default_gateway : bool) : list Event :=
  all_add_ips ifname subnets ++ [IfaceCommit ifname] ++
  all_route_adds is_default_gateway subnets.

(** [m] works through [plan]: the operations it makes are the first ones of
    [plan], in order, and all of [plan] when it returns. *)
Definition follows_plan (plan : list Event) {A} (m : M A) : Prop :=
  emits m (fun r evs =>
    List.filter is_work evs `prefix_of` plan /\
    (returned r = true -> List.filter is_work evs = plan)).

(** Entering [_configure_l3] and opening the IPDB handle. *)
Definition is_open_event (ev : Event) : bool :=
  match ev with
  | CallConfigureL3 _ _ _ _ | NetNS _ | IPDB _ => true
  | _ => false
  end.

(** What is done on the interface inside the [with] block of the
    interface. *)
Definition is_iface_event (ev : Event) : bool :=
  match ev with
  | IfaceLookup _ | AddIp _ _ | IfaceCommit _ => true
  | _ => false
  end.

Definition is_release (ev : Event) : bool :=
  match ev with ReleaseIPDB => true | _ => false end.

(** [m] stops at the failure of an event of the class [F]: it ends with
    that exception, and emits only [tail] afterwards. *)
Definition stops_at (F : Event -> bool) (tail : list Event) {A} (m : M A)
  : Prop :=
  forall w, exists evs,
    trace (m w).2 = trace w ++ evs /\
    forall pre ev rest e,
      evs = pre ++ ev :: rest ->
      F ev = true ->
      env (trace w ++ pre) ev = Some e ->
      (m w).1 = Raise e /\ rest = tail.

(** The [try] block of [_enable_ipv6] from the point where [self_ns_fd] is
    bound (lines 66-69). *)
Definition enable_ipv6_inside (netns : option string) : M unit :=
  setns (NsByName netns) >>
  let* path :=
    convert_netns (Some "/proc/sys/net/ipv6/conf/all/disable_ipv6") in
  write_file path "0".

(** The VIF has a physnet that maps, through the resource class, to the
    driver [driver_name]. *)
Definition maps_to_driver (vif : VIF) (driver_name : string) : Prop :=
  exists physnet resource,
    vif_physnet vif = Some physnet /\
    sriov_physnet_resource_mappings !! physnet = Some resource /\
    sriov_resource_driver_mappings !! resource = Some driver_name.

(** The calls [get_ipdb] makes: [NetNS(netns)] and [IPDB(nl=...)] when
    [netns] is true in Python's sense, [IPDB()] alone otherwise. *)
Definition ipdb_opens (netns : option string) : list Event :=
  match netns with
  | Some p => if negb (String.eqb p "") then [NetNS p; IPDB true]
              else [IPDB false]
  | None => [IPDB false]
  end.

(** What [_configure_l3] does to get its IPDB handle. *)
Definition l3_opens (vif_dict : VifDict) (ifname : string)
    (netns : option string) (is_default_gateway : bool) : list Event :=
  CallConfigureL3 vif_dict ifname netns is_default_gateway :: ipdb_opens netns.

(** In the list of calls [l], made from the trace [tr], the calls before
    [ev] succeed and [ev] raises [e]. *)
Definition first_failure (tr : list Event) (l pre : list Event) (ev : Event)
    (e : Exn) : Prop :=
  (exists rest, l = pre ++ ev :: rest) /\
  (forall p1 ev1 r1, pre = p1 ++ ev1 :: r1 -> env (tr ++ p1) ev1 = None) /\
  env (tr ++ pre) ev = Some e.

(** All the calls of [l], made from the trace [tr], succeed. *)
Definition all_succeed (tr : list Event) (l : list Event) : Prop :=
  forall pre ev rest, l = pre ++ ev :: rest -> env (tr ++ pre) ev = None.

(** The three things [_enable_ipv6] does first: it is entered, normalizes
    the path of the namespace file of the process, and opens that file. *)
Definition enable_ipv6_prelude (netns : option string) : list Event :=
  [CallEnableIPv6 netns;
   ConvertNetns (Some "/proc/self/ns/net");
   OpenFile (convert_netns_value (Some "/proc/self/ns/net")) "r"].

Definition is_restore (ev : Event) : bool :=
  match ev with Setns (NsByFile _) => true | _ => false end.


(** ** Lists of events *)

Lemma count_events_app p (l1 l2 : list Event) :
  count_events p (l1 ++ l2) = (count_events p l1 + count_events p l2)%nat.
Proof. unfold count_events. by rewrite List.filter_app, length_app. Qed.

Lemma count_events_none p (l : list Event) :
  Forall (fun ev => p ev = false) l -> count_events p l = 0%nat.
Proof.
  unfold count_events. induction 1 as [|ev l Hev _ IH]; simpl; [done|].
  by rewrite Hev.
Qed.

(** An element of [l1 ++ l2] lies in [l1] or in [l2]. *)
Lemma app_eq_app_cons (l1 l2 pre rest : list Event) ev :
  l1 ++ l2 = pre ++ ev :: rest ->
  (exists r1, l1 = pre ++ ev :: r1 /\ rest = r1 ++ l2) \/
  (exists p2, pre = l1 ++ p2 /\ l2 = p2 ++ ev :: rest).
Proof.
  revert pre. induction l1 as [|x l1 IH]; intros pre Heq; simpl in *.
  - right. by exists pre.
  - destruct pre as [|y pre]; simpl in *.
    + injection Heq as -> <-. left. by exists l1.
    + injection Heq as -> Heq. destruct (IH _ Heq) as [(r1 & -> & ->)|(p2 & -> & ->)].
      * left. by exists r1.
      * right. by exists p2.
Qed.


Lemma emits_ret {A} (a : A) (Q : Res A -> list Event -> Prop) :
  Q (Ok a) [] -> emits (ret a) Q.
Proof. intros HQ w. exists []. simpl. by rewrite app_nil_r. Qed.

Lemma emits_raise {A} (e : Exn) (Q : Res A -> list Event -> Prop) :
  Q (Raise e) [] -> emits (raise e) Q.
Proof. intros HQ w. exists []. simpl. by rewrite app_nil_r. Qed.

Lemma emits_emit ev (Q : Res unit -> list Event -> Prop) :
  Q (Ok tt) [ev] -> emits (emit ev) Q.
Proof. intros HQ w. by exists [ev]. Qed.

Lemma emits_call ev (Q : Res unit -> list Event -> Prop) :
  (forall r, Q r [ev]) -> emits (call ev) Q.
Proof.
  intros HQ w. exists [ev]. unfold call.
  destruct (env (trace w) ev); simpl; auto.
Qed.

Lemma emits_setns h (Q : Res unit -> list Event -> Prop) :
  (forall r, Q r [Setns h]) -> emits (setns h) Q.
Proof.
  intros HQ w. exists [Setns h]. unfold setns.
  destruct (env (trace w) (Setns h)); simpl; auto.
Qed.

Lemma emits_bind {A B} (m : M A) (k : A -> M B) Q1 Q2
    (Q : Res B -> list Event -> Prop) :
  emits m Q1 ->
  (forall a, emits (k a) (Q2 a)) ->
  (forall e evs, Q1 (Raise e) evs -> Q (Raise e) evs) ->
  (forall a evs1 r evs2, Q1 (Ok a) evs1 -> Q2 a r evs2 -> Q r (evs1 ++ evs2)) ->
  emits (bind m k) Q.
Proof.
  intros Hm Hk Hraise Hok w. unfold bind.
  destruct (Hm w) as (evs1 & Htr1 & HQ1).
  destruct (m w) as [[a|e] w1]; simpl in *.
  - destruct (Hk a w1) as (evs2 & Htr2 & HQ2).
    exists (evs1 ++ evs2). split.
    + by rewrite Htr2, Htr1, app_assoc.
    + eauto.
  - exists evs1. eauto.
Qed.

Lemma emits_try_finally {A} (body : M A) (fin : M unit) Q1 Q2
    (Q : Res A -> list Event -> Prop) :
  emits body Q1 ->
  emits fin Q2 ->
  (forall r evs1 evs2, Q1 r evs1 -> Q2 (Ok tt) evs2 -> Q r (evs1 ++ evs2)) ->
  (forall r evs1 e evs2, Q1 r evs1 -> Q2 (Raise e) evs2 -> Q (Raise e) (evs1 ++ evs2)) ->
  emits (try_finally body fin) Q.
Proof.
  intros Hb Hf Hok Hraise w. unfold try_finally.
  destruct (Hb w) as (evs1 & Htr1 & HQ1).
  destruct (body w) as [r w1]; simpl in *.
  destruct (Hf w1) as (evs2 & Htr2 & HQ2).
  destruct (fin w1) as [[[]|e] w2]; simpl in *;
    exists (evs1 ++ evs2); (split; [by rewrite Htr2, Htr1, app_assoc|eauto]).
Qed.

Lemma emits_try_except {A} (body : M A) (handler : Exn -> M A) Q1 Q2
    (Q : Res A -> list Event -> Prop) :
  emits body Q1 ->
  (forall e, emits (handler e) (Q2 e)) ->
  (forall a evs, Q1 (Ok a) evs -> Q (Ok a) evs) ->
  (forall e evs1 r evs2, Q1 (Raise e) evs1 -> Q2 e r evs2 -> Q r (evs1 ++ evs2)) ->
  emits (try_except body handler) Q.
Proof.
  intros Hb Hh Hok Hraise w. unfold try_except.
  destruct (Hb w) as (evs1 & Htr1 & HQ1).
  destruct (body w) as [[a|e] w1]; simpl in *.
  - exists evs1. eauto.
  - destruct (Hh e w1) as (evs2 & Htr2 & HQ2).
    exists (evs1 ++ evs2). split; [by rewrite Htr2, Htr1, app_assoc|eauto].
Qed.

Lemma emits_mono {A} (m : M A) (Q Q' : Res A -> list Event -> Prop) :
  emits m Q -> (forall r evs, Q r evs -> Q' r evs) -> emits m Q'.
Proof. intros Hm HQ w. destruct (Hm w) as (evs & ? & ?). eauto. Qed.

Lemma emits_and {A} (m : M A) (Q Q' : Res A -> list Event -> Prop) :
  emits m Q -> emits m Q' -> emits m (fun r evs => Q r evs /\ Q' r evs).
Proof.
  intros H1 H2 w. destruct (H1 w) as (evs & Htr & ?).
  destruct (H2 w) as (evs' & Htr' & ?).
  rewrite Htr in Htr'. apply app_inv_head in Htr'. subst evs'. eauto.
Qed.

(** A loop: [I] holds of what the iterations so far emitted, whether the
    loop went on or was left by an exception. *)
Lemma emits_for_each {A} (l : list A) (body : A -> M unit)
    (I : list Event -> Prop) :
  I [] ->
  (forall x, x ∈ l ->
     emits (body x) (fun _ evs => forall pre, I pre -> I (pre ++ evs))) ->
  emits (for_each l body) (fun _ evs => I evs).
Proof.
  intros H0 Hbody.
  cut (emits (for_each l body) (fun _ evs => forall pre, I pre -> I (pre ++ evs))).
  { intros H. eapply emits_mono; [exact H|]. simpl. intros _ evs Hevs.
    apply (Hevs [] H0). }
  clear H0. revert Hbody.
  induction l as [|x l IH]; intros Hbody; simpl.
  - apply emits_ret. intros pre Hpre. by rewrite app_nil_r.
  - eapply (emits_bind _ _ _ (fun _ _ evs => forall pre, I pre -> I (pre ++ evs))).
    + apply Hbody. left.
    + intros u. apply IH. intros y Hy. apply Hbody. by right.
    + simpl. intros e evs H. exact H.
    + simpl. intros u evs1 r evs2 H1 H2 pre Hpre. rewrite app_assoc.
      apply H2, H1, Hpre.
Qed.


Lemma only_mono (P P' : Event -> Prop) {A} (m : M A) :
  only P m -> (forall ev, P ev -> P' ev) -> only P' m.
Proof.
  intros Hm HP. eapply emits_mono; [exact Hm|].
  intros r evs. simpl. intros H. eapply Forall_impl; [exact H|exact HP].
Qed.

Lemma only_ret P {A} (a : A) : only P (ret a).
Proof. by apply emits_ret. Qed.

Lemma only_raise P {A} e : only P (@raise A e).
Proof. by apply emits_raise. Qed.

Lemma only_emit (P : Event -> Prop) ev : P ev -> only P (emit ev).
Proof. intros. apply emits_emit. by repeat constructor. Qed.

Lemma only_call (P : Event -> Prop) ev : P ev -> only P (call ev).
Proof. intros. apply emits_call. intros r. by repeat constructor. Qed.

Lemma only_setns (P : Event -> Prop) h : P (Setns h) -> only P (setns h).
Proof. intros. apply emits_setns. intros r. by repeat constructor. Qed.

Lemma only_bind P {A B} (m : M A) (k : A -> M B) :
  only P m -> (forall a, only P (k a)) -> only P (bind m k).
Proof.
  intros Hm Hk.
  eapply (emits_bind _ _ _ (fun _ _ evs => Forall P evs)); [exact Hm|exact Hk|done|].
  simpl. intros. by apply Forall_app.
Qed.

Lemma only_try_finally P {A} (body : M A) (fin : M unit) :
  only P body -> only P fin -> only P (try_finally body fin).
Proof.
  intros Hb Hf. eapply emits_try_finally; [exact Hb|exact Hf|..];
    simpl; intros; by apply Forall_app.
Qed.

Lemma only_try_except P {A} (body : M A) (handler : Exn -> M A) :
  only P body -> (forall e, only P (handler e)) -> only P (try_except body handler).
Proof.
  intros Hb Hh.
  eapply (emits_try_except _ _ _ (fun _ _ evs => Forall P evs));
    [exact Hb|exact Hh|done|].
  simpl. intros. by apply Forall_app.
Qed.

Lemma only_for_each P {A} (l : list A) (body : A -> M unit) :
  (forall x, only P (body x)) -> only P (for_each l body).
Proof.
  intros Hbody. apply emits_for_each; [done|].
  intros x Hx. eapply emits_mono; [apply Hbody|].
  simpl. intros r evs H pre Hpre. by apply Forall_app.
Qed.

(** ** [_enable_ipv6] *)


Lemma only_convert_netns (P : Event -> Prop) netns :
  P (ConvertNetns netns) -> only P (convert_netns netns).
Proof.
  intros. apply only_bind; [by apply only_call|]. intros. apply only_ret.
Qed.

Lemma only_write_file (P : Event -> Prop) path data :
  P (OpenFile path "w") -> P (WriteFile path data) -> P (CloseFile path) ->
  only P (write_file path data).
Proof.
  intros. apply only_bind; [by apply only_call|]. intros.
  apply only_try_finally; by apply only_call.
Qed.

Lemma enable_ipv6_try_emits netns w :
  exists evs,
    trace (enable_ipv6_try netns w).2 = trace w ++ evs /\
    Forall inner_ipv6_event evs.
Proof.
  unfold enable_ipv6_try.
  destruct (only_convert_netns inner_ipv6_event (Some "/proc/self/ns/net")
              ltac:(done) w) as (evs1 & Htr1 & H1).
  destruct (convert_netns _ w) as [[path|e] w1]; simpl in *; [|by eauto].
  unfold open_ns_file.
  destruct (env (trace w1) (OpenFile path "r")) as [e|]; simpl.
  { exists (evs1 ++ [OpenFile path "r"]). rewrite Htr1, <- app_assoc.
    split; [done|]. apply Forall_app. by repeat constructor. }
  set (w2 := record (OpenFile path "r") w1).
  assert (only inner_ipv6_event
            (setns (NsByName netns) >>
             let* path :=
               convert_netns (Some "/proc/sys/net/ipv6/conf/all/disable_ipv6") in
             write_file path "0")) as Hrest.
  { apply only_bind; [by apply only_setns|]. intros _.
    apply only_bind; [by apply only_convert_netns|]. intros p.
    by apply only_write_file. }
  destruct (Hrest w2) as (evs3 & Htr3 & H3).
  destruct (bind _ _ w2) as [r w3]; simpl in *.
  exists (evs1 ++ [OpenFile path "r"] ++ evs3).
  rewrite Htr3, Htr1, <- !app_assoc. split; [done|].
  apply Forall_app; split; [done|]. apply Forall_app. by repeat constructor.
Qed.

Lemma enable_ipv6_emits netns :
  emits (_enable_ipv6 netns) (fun _ evs =>
    exists rest, evs = CallEnableIPv6 netns :: rest /\
                 Forall inner_ipv6_event rest).
Proof.
  intros w. unfold _enable_ipv6, bind, emit.
  set (w0 := record (CallEnableIPv6 netns) w).
  destruct (enable_ipv6_try_emits netns w0) as (evs1 & Htr1 & H1).
  destruct (enable_ipv6_try netns w0) as [[r fd] w1]; simpl in *.
  assert (only inner_ipv6_event (enable_ipv6_finally fd)) as Hfin.
  { destruct fd; simpl; [by apply only_setns|apply only_raise]. }
  destruct (Hfin w1) as (evs2 & Htr2 & H2).
  destruct (enable_ipv6_finally fd w1) as [[[]|e] w2]; simpl in *;
    exists (CallEnableIPv6 netns :: evs1 ++ evs2);
    (split; [by rewrite Htr2, Htr1, <- !app_assoc
            |eexists; split; [done|by apply Forall_app]]).
Qed.

(** ** The first loop: addresses *)

(** A loop of calls emits a prefix of the calls, all of them when it ends
    normally. *)
Lemma for_each_call_emits {A} (l : list A) (f : A -> Event) :
  emits (for_each l (fun x => call (f x))) (fun r evs =>
    evs `prefix_of` List.map f l /\ (returned r = true -> evs = List.map f l)).
Proof.
  induction l as [|x l IH]; simpl.
  - by apply emits_ret.
  - eapply (emits_bind _ _ (fun _ evs => evs = [f x])
              (fun _ r evs => evs `prefix_of` List.map f l /\
                              (returned r = true -> evs = List.map f l))).
    + apply emits_call. done.
    + intros u. exact IH.
    + simpl. intros e evs ->. split; [|done]. by exists (List.map f l).
    + simpl. intros u evs1 r evs2 -> [Hpre Hok]. split.
      * simpl. by apply prefix_cons.
      * intros Hr. simpl. by rewrite (Hok Hr).
Qed.

Lemma add_ips_emits ifname subnet :
  emits (add_ips ifname subnet) (fun r evs =>
    evs `prefix_of` subnet_add_ips ifname subnet /\
    (returned r = true -> evs = subnet_add_ips ifname subnet)).
Proof. apply for_each_call_emits. Qed.

Lemma address_step_emits ifname netns subnet :
  emits
    ((if Z.eqb (cidr_version (subnet_cidr subnet)) 6
      then _enable_ipv6 netns else ret tt) >>
     add_ips ifname subnet)
    (fun r evs => address_chunk ifname netns subnet (returned r) evs).
Proof.
  eapply (emits_bind _ _
            (fun _ en =>
               if is_ipv6 subnet
               then exists rest, en = CallEnableIPv6 netns :: rest /\
                                 Forall inner_ipv6_event rest
               else en = [])
            (fun _ r ads =>
               ads `prefix_of` subnet_add_ips ifname subnet /\
               (returned r = true -> ads = subnet_add_ips ifname subnet))).
  - unfold is_ipv6. destruct (Z.eqb _ 6).
    + apply enable_ipv6_emits.
    + by apply emits_ret.
  - intros u. apply add_ips_emits.
  - simpl. intros e en Hen. exists en, []. rewrite app_nil_r.
    repeat split; [done| |done]. apply prefix_nil.
  - simpl. intros u en r ads Hen [Hpre Hok]. by exists en, ads.
Qed.

Lemma configure_addresses_emits subnets ifname netns :
  emits (configure_addresses subnets ifname netns) (fun r evs =>
    address_trace ifname netns subnets (returned r) evs).
Proof.
  unfold configure_addresses. induction subnets as [|s subnets IH]; simpl.
  - apply emits_ret. constructor.
  - eapply (emits_bind _ _
              (fun r evs => address_chunk ifname netns s (returned r) evs)
              (fun _ r evs => address_trace ifname netns subnets (returned r) evs)).
    + apply address_step_emits.
    + intros u. exact IH.
    + simpl. intros e evs H. by constructor.
    + simpl. intros u evs1 r evs2 H1 H2. by constructor.
Qed.

Lemma subnet_add_ips_elem ifname subnet ev :
  ev ∈ subnet_add_ips ifname subnet ->
  exists fip, fip ∈ subnet_ips subnet /\
    ev = AddIp ifname
           (format_ip (fip_address fip) (cidr_prefixlen (subnet_cidr subnet))).
Proof.
  unfold subnet_add_ips. rewrite list_elem_of_In, in_map_iff.
  intros (fip & <- & Hin). exists fip. by rewrite list_elem_of_In.
Qed.

Lemma subnet_add_ips_all ifname subnet :
  Forall (fun ev => is_add_ip ev = true) (subnet_add_ips ifname subnet).
Proof.
  unfold subnet_add_ips. induction (subnet_ips subnet) as [|fip l IH]; simpl;
    by constructor.
Qed.

Lemma add_ips_filter (ads : list Event) :
  Forall (fun ev => is_add_ip ev = true) ads ->
  List.filter is_add_ip ads = ads /\ count_events is_enable_ipv6 ads = 0%nat.
Proof.
  unfold count_events.
  induction 1 as [|ev ads Hev _ [IH1 IH2]]; simpl; [done|].
  rewrite Hev, IH1. split; [done|]. by destruct ev.
Qed.

Lemma prefix_filter_add_ip ifname subnet (ads : list Event) :
  ads `prefix_of` subnet_add_ips ifname subnet ->
  List.filter is_add_ip ads = ads /\ count_events is_enable_ipv6 ads = 0%nat.
Proof.
  intros [k Hk]. apply add_ips_filter.
  pose proof (subnet_add_ips_all ifname subnet) as H.
  rewrite Hk in H. by apply Forall_app in H as [? _].
Qed.

Lemma inner_ipv6_filter_add_ip (l : list Event) :
  Forall inner_ipv6_event l ->
  List.filter is_add_ip l = [] /\ count_events is_enable_ipv6 l = 0%nat.
Proof.
  unfold count_events.
  induction 1 as [|ev l [H1 H2] _ [IH1 IH2]]; simpl; [done|].
  rewrite H2. destruct ev; simpl in *; done.
Qed.

(** The facts about one chunk. *)
Lemma address_chunk_facts ifname netns subnet ok evs :
  address_chunk ifname netns subnet ok evs ->
  count_events is_enable_ipv6 evs = (if is_ipv6 subnet then 1 else 0)%nat /\
  List.filter is_add_ip evs `prefix_of` subnet_add_ips ifname subnet /\
  (ok = true -> List.filter is_add_ip evs = subnet_add_ips ifname subnet) /\
  Forall (fun ev => is_ipv6_event ev = true \/ is_add_ip ev = true) evs.
Proof.
  intros (en & ads & -> & Hen & Hpre & Hok).
  destruct (prefix_filter_add_ip _ _ _ Hpre) as [Hads Hcnt].
  assert (List.filter is_add_ip en = [] /\
          count_events is_enable_ipv6 en = (if is_ipv6 subnet then 1 else 0)%nat /\
          Forall (fun ev => is_ipv6_event ev = true \/ is_add_ip ev = true) en)
    as (Hf & Hc & Hall).
  { destruct (is_ipv6 subnet).
    - destruct Hen as (rest & -> & Hrest).
      destruct (inner_ipv6_filter_add_ip _ Hrest) as [H1 H2].
      unfold count_events in *. simpl. rewrite H1, H2. repeat split.
      constructor; [by left|].
      eapply Forall_impl; [exact Hrest|]. intros ev [? ?]. by left.
    - by subst en. }
  rewrite count_events_app, List.filter_app, Hf, Hc, Hcnt, Hads. simpl.
  repeat split; [lia|done|done|].
  apply Forall_app. split; [done|].
  rewrite <- Hads. clear. induction ads as [|ev ads IH]; simpl; [done|].
  destruct (is_add_ip ev) eqn:E; [|done]. constructor; [by right|done].
Qed.

(** In a chunk, an address added before [_enable_ipv6] is entered belongs to
    a subnet that is not IPv6. *)
Lemma address_chunk_before_enable ifname netns subnet ok evs pre post ifn ip :
  address_chunk ifname netns subnet ok evs ->
  evs = pre ++ post ->
  count_events is_enable_ipv6 pre = 0%nat ->
  AddIp ifn ip ∈ pre ->
  is_ipv6 subnet = false /\
  exists fip, fip ∈ subnet_ips subnet /\
    ip = format_ip (fip_address fip) (cidr_prefixlen (subnet_cidr subnet)).
Proof.
  intros (en & ads & -> & Hen & [k Hpre] & _) Heq Hcnt Hin.
  destruct (is_ipv6 subnet).
  - destruct Hen as (rest & -> & _). destruct pre as [|ev pre].
    + by apply elem_of_nil in Hin.
    + simpl in Heq. injection Heq as <- _. unfold count_events in Hcnt.
      simpl in Hcnt. lia.
  - subst en. simpl in Heq. split; [done|].
    assert (AddIp ifn ip ∈ subnet_add_ips ifname subnet) as Hin'.
    { rewrite Hpre, Heq. rewrite !elem_of_app. by left; left. }
    destruct (subnet_add_ips_elem _ _ _ Hin') as (fip & Hfip & Hev).
    exists fip. split; [done|]. by injection Hev.
Qed.

(** The facts about the whole loop. *)
Lemma address_trace_facts ifname netns subnets ok evs :
  address_trace ifname netns subnets ok evs ->
  (count_events is_enable_ipv6 evs <= ipv6_subnets subnets)%nat /\
  (ok = true ->
     count_events is_enable_ipv6 evs = ipv6_subnets subnets /\
     List.filter is_add_ip evs = all_add_ips ifname subnets) /\
  Forall (fun ev => is_ipv6_event ev = true \/ is_add_ip ev = true) evs.
Proof.
  unfold ipv6_subnets.
  induction 1 as [|s subnets evs Hc|s subnets ok evs1 evs2 Hc _ (IH1 & IH2 & IH3)];
    simpl.
  - done.
  - destruct (address_chunk_facts _ _ _ _ _ Hc) as (H1 & _ & _ & H4).
    rewrite H1. split; [|split; [done|done]].
    destruct (is_ipv6 s); simpl; lia.
  - destruct (address_chunk_facts _ _ _ _ _ Hc) as (H1 & _ & H3 & H4).
    rewrite count_events_app, List.filter_app, H1, (H3 eq_refl).
    split; [|split].
    + destruct (is_ipv6 s); simpl; lia.
    + intros Hok. destruct (IH2 Hok) as [-> ->].
      split; [|done]. destruct (is_ipv6 s); simpl; lia.
    + by apply Forall_app.
Qed.

Lemma address_trace_before_enable ifname netns subnets ok evs pre post ifn ip :
  address_trace ifname netns subnets ok evs ->
  evs = pre ++ post ->
  count_events is_enable_ipv6 pre = 0%nat ->
  AddIp ifn ip ∈ pre ->
  of_non_ipv6_subnet subnets ip.
Proof.
  intros Htr. revert pre post.
  induction Htr as [|s subnets evs Hc|s subnets ok evs1 evs2 Hc _ IH];
    intros pre post Heq Hcnt Hin.
  - symmetry in Heq. apply app_eq_nil in Heq as [-> _].
    by apply elem_of_nil in Hin.
  - destruct (address_chunk_before_enable _ _ _ _ _ _ _ _ _ Hc Heq Hcnt Hin)
      as (Hv & fip & Hfip & ->).
    exists s, fip. repeat split; [left|done|done].
  - assert (of_non_ipv6_subnet subnets ip -> of_non_ipv6_subnet (s :: subnets) ip)
      as Hweak.
    { intros (s' & fip & ? & ? & ? & ?). exists s', fip.
      repeat split; [by right|done..]. }
    apply List.app_eq_app in Heq as (l & [[-> ->]|[-> ->]]).
    + (* [pre] ends inside the chunk of [s] *)
      destruct (address_chunk_before_enable _ _ _ _ _ _ _ _ _ Hc eq_refl Hcnt Hin)
        as (Hv & fip & Hfip & ->).
      exists s, fip. repeat split; [left|done|done].
    + (* [pre] covers the chunk of [s] *)
      rewrite count_events_app in Hcnt.
      apply elem_of_app in Hin as [Hin|Hin].
      * assert (evs1 = evs1 ++ []) as Heq1 by (by rewrite app_nil_r).
        destruct (address_chunk_before_enable _ _ _ _ _ _ _ _ _ Hc Heq1
                    ltac:(lia) Hin) as (Hv & fip & Hfip & ->).
        exists s, fip. repeat split; [left|done|done].
      * apply Hweak. eapply IH; [done|lia|done].
Qed.

(** ** The second loop: routes *)

Lemma add_routes_emits subnet :
  emits (add_routes subnet) (fun _ evs =>
    Forall (fun ev => is_tail_event ev = true) evs /\
    count_events is_default_route_add evs = 0%nat).
Proof.
  eapply emits_mono.
  - apply (only_for_each
             (fun ev => is_tail_event ev = true /\ is_default_route_add ev = false)).
    intros route. by apply only_call.
  - simpl. intros _ evs H. split.
    + eapply Forall_impl; [exact H|]. by intros ev [? ?].
    + apply count_events_none. eapply Forall_impl; [exact H|]. by intros ev [? ?].
Qed.

Lemma add_default_route_emits vif_dict subnet is_default_gateway :
  emits (add_default_route vif_dict subnet is_default_gateway) (fun _ evs =>
    Forall (fun ev => is_tail_event ev = true) evs /\
    (count_events is_default_route_add evs <=
       if is_default_gateway && has_gateway subnet then 1 else 0)%nat).
Proof.
  unfold add_default_route, has_gateway.
  destruct is_default_gateway; [|by apply emits_ret].
  destruct (subnet_gateway subnet) as [gateway|]; [|by apply emits_ret].
  simpl.
  eapply (emits_try_except _ _ (fun _ evs => evs = [DefaultRouteAdd gateway])
            (fun _ _ evs => Forall (fun ev => is_tail_event ev = true) evs /\
                            count_events is_default_route_add evs = 0%nat)).
  - by apply emits_call.
  - intros ex. destruct ex as [| code | | |]; try by apply emits_raise.
    destruct (negb (Z.eqb code EEXIST)); [by apply emits_raise|].
    apply emits_emit. by repeat constructor.
  - simpl. intros _ evs ->. split; [by repeat constructor|done].
  - simpl. intros e evs1 r evs2 -> [H1 H2]. split.
    + by constructor.
    + change (S (count_events is_default_route_add evs2) <= 1)%nat. lia.
Qed.

Lemma configure_routes_emits vif_dict subnets is_default_gateway :
  emits (configure_routes vif_dict subnets is_default_gateway) (fun _ evs =>
    Forall (fun ev => is_tail_event ev = true) evs /\
    (count_events is_default_route_add evs <=
       default_route_bound subnets is_default_gateway)%nat).
Proof.
  unfold configure_routes, default_route_bound, gateway_subnets.
  induction subnets as [|s subnets IH]; simpl.
  - apply emits_ret. split; [done|]. destruct is_default_gateway; done.
  - set (Q := fun (n : nat) (_ : Res unit) evs =>
                Forall (fun ev => is_tail_event ev = true) evs /\
                (count_events is_default_route_add evs <= n)%nat).
    assert (emits (add_routes s >> add_default_route vif_dict s is_default_gateway)
              (Q (if is_default_gateway && has_gateway s then 1 else 0)%nat))
      as Hstep.
    { eapply (emits_bind _ _ _ (fun _ => Q _)).
      - apply add_routes_emits.
      - intros u. apply add_default_route_emits.
      - simpl. intros e evs [H1 H2]. split; [done|]. rewrite H2. lia.
      - simpl. intros u evs1 r evs2 [H1 H2] [H3 H4]. split.
        + by apply Forall_app.
        + rewrite count_events_app, H2. exact H4. }
    eapply (emits_bind _ _ _ (fun _ => Q _)).
    + exact Hstep.
    + intros u. exact IH.
    + simpl. intros e evs [H1 H2]. split; [done|].
      destruct is_default_gateway, (has_gateway s); simpl in *; lia.
    + simpl. intros u evs1 r evs2 [H1 H2] [H3 H4]. split.
      * by apply Forall_app.
      * rewrite count_events_app.
        destruct is_default_gateway, (has_gateway s); simpl in *; lia.
Qed.

(** ** The shape of a call of [_configure_l3] *)

Lemma with_iface_emits subnets ifname netns :
  emits (with_iface subnets ifname netns) (fun r evs =>
    (evs = [IfaceLookup ifname] /\ returned r = false) \/
    exists addr ok,
      address_trace ifname netns subnets ok addr /\
      ((ok = false /\ evs = IfaceLookup ifname :: addr /\ returned r = false) \/
       (ok = true /\ evs = IfaceLookup ifname :: addr ++ [IfaceCommit ifname]))).
Proof.
  unfold with_iface.
  eapply (emits_bind _ _ (fun _ evs => evs = [IfaceLookup ifname])
            (fun _ r evs =>
               exists addr ok,
                 address_trace ifname netns subnets ok addr /\
                 ((ok = false /\ evs = addr /\ returned r = false) \/
                  (ok = true /\ evs = addr ++ [IfaceCommit ifname])))).
  - by apply emits_call.
  - intros u.
    eapply (emits_bind _ _
              (fun r evs => address_trace ifname netns subnets (returned r) evs)
              (fun _ _ evs => evs = [IfaceCommit ifname])).
    + apply configure_addresses_emits.
    + intros u'. by apply emits_call.
    + simpl. intros e evs H. exists evs, false. split; [done|]. by left.
    + simpl. intros u' evs1 r evs2 H ->. exists evs1, true. split; [done|].
      by right.
  - simpl. intros e evs ->. by left.
  - simpl. intros u evs1 r evs2 -> (addr & ok & Htr & H). right.
    exists addr, ok. split; [done|].
    destruct H as [(-> & -> & Hr)|(-> & ->)]; [by left|by right].
Qed.

Lemma l3_body_emits vif_dict ifname netns is_default_gateway :
  let subnets := network_subnets (vd_network vif_dict) in
  emits (with_iface subnets ifname netns >>
         configure_routes vif_dict subnets is_default_gateway)
        (l3_shape ifname netns subnets is_default_gateway).
Proof.
  intros subnets.
  eapply emits_bind.
  - apply with_iface_emits.
  - intros u. apply configure_routes_emits.
  - simpl. intros e evs [[-> _]|(addr & ok & Htr & H)].
    + exists [IfaceLookup ifname], [], [], false.
      split; [done|]. split; [by repeat constructor|]. split; [by left|].
      split; [done|]. split; [apply Nat.le_0_l|]. split; [done|done].
    + destruct H as [(-> & -> & _)|(-> & ->)].
      * exists [IfaceLookup ifname], addr, [], false.
        split; [by rewrite app_nil_r|].
        split; [by repeat constructor|]. split; [by right|].
        split; [done|]. split; [apply Nat.le_0_l|]. split; [done|done].
      * exists [IfaceLookup ifname], addr, [IfaceCommit ifname], true.
        split; [done|]. split; [by repeat constructor|]. split; [by right|].
        split; [by repeat constructor|]. split; [apply Nat.le_0_l|].
        split; [done|]. intros _. by exists [].
  - simpl. intros u evs1 r evs2 [[_ Hr]|(addr & ok & Htr & H)] [H1 H2];
      [done|].
    destruct H as [(_ & _ & Hr)|(-> & ->)]; [done|].
    exists [IfaceLookup ifname], addr, (IfaceCommit ifname :: evs2), true.
    split; [simpl; by rewrite <- app_assoc|].
    split; [by repeat constructor|]. split; [by right|].
    split; [by constructor|]. split; [exact H2|].
    split; [done|]. intros _. by exists evs2.
Qed.

Lemma only_get_ipdb (P : Event -> Prop) netns :
  (forall ev, is_setup_event ev = true -> P ev) -> only P (get_ipdb netns).
Proof.
  intros HP. unfold get_ipdb. destruct netns as [p|]; [|by apply only_call, HP].
  destruct (negb (String.eqb p "")); [|by apply only_call, HP].
  apply only_bind; [by apply only_call, HP|]. intros u. by apply only_call, HP.
Qed.

Lemma configure_l3_emits vif_dict ifname netns is_default_gateway :
  emits (_configure_l3 vif_dict ifname netns is_default_gateway)
    (l3_shape ifname netns (network_subnets (vd_network vif_dict))
       is_default_gateway).
Proof.
  unfold _configure_l3.
  set (subnets := network_subnets (vd_network vif_dict)).
  assert (forall (r : Res unit) evs,
            Forall (fun ev => is_setup_event ev = true) evs ->
            returned r = false ->
            l3_shape ifname netns subnets is_default_gateway r evs) as Hsetup.
  { intros r evs Hevs Hr. exists evs, [], [], false. rewrite app_nil_r.
    split; [done|]. split; [done|]. split; [by left|].
    split; [done|]. split; [apply Nat.le_0_l|]. split; [done|done]. }
  assert (forall (r : Res unit) pre evs,
            Forall (fun ev => is_setup_event ev = true) pre ->
            l3_shape ifname netns subnets is_default_gateway r evs ->
            l3_shape ifname netns subnets is_default_gateway r (pre ++ evs))
    as Hpre.
  { intros r pre evs Hp (setup & addr & tail & ok & -> & H1 & H2 & H3).
    exists (pre ++ setup), addr, tail, ok. rewrite <- app_assoc.
    split; [done|]. split; [by apply Forall_app|done]. }
  eapply (emits_bind _ _ (fun _ evs => Forall (fun ev => is_setup_event ev = true) evs)
            (fun _ => l3_shape ifname netns subnets is_default_gateway)).
  - by apply only_call.
  - intros u.
    eapply (emits_bind _ _
              (fun _ evs => Forall (fun ev => is_setup_event ev = true) evs)
              (fun _ => l3_shape ifname netns subnets is_default_gateway)).
    + by apply only_get_ipdb.
    + intros u'.
      eapply (emits_try_finally _ _ _
                (fun r evs => evs = [ReleaseIPDB] /\ returned r = true)).
      * apply l3_body_emits.
      * by apply emits_emit.
      * simpl.
        intros r evs1 evs2
          (setup & addr & tail & ok & -> & H1 & H2 & H3 & H4 & H5 & H6) [-> _].
        exists setup, addr, (tail ++ [ReleaseIPDB]), ok.
        rewrite <- !app_assoc. split; [done|]. split; [done|]. split; [done|].
        split; [apply Forall_app; by repeat constructor|].
        split.
        { rewrite count_events_app.
          change (count_events is_default_route_add [ReleaseIPDB]) with 0%nat.
          rewrite Nat.add_0_r. exact H4. }
        split.
        { intros Hok. destruct (H5 Hok) as [H7 H8]. split; [|done].
          apply Forall_app. by repeat constructor. }
        intros Hok. destruct (H6 Hok) as [tail' ->].
        by exists (tail' ++ [ReleaseIPDB]).
      * simpl. by intros r evs1 e evs2 _ [_ ?].
    + simpl. intros e evs H. by apply Hsetup.
    + simpl. intros u' evs1 r evs2 H1 H2. by apply Hpre.
  - simpl. intros e evs H. by apply Hsetup.
  - simpl. intros u evs1 r evs2 H1 H2. by apply Hpre.
Qed.

(** ** Classes of events *)

Lemma setup_events_facts (l : list Event) :
  Forall (fun ev => is_setup_event ev = true) l ->
  List.filter is_add_ip l = [] /\
  count_events is_enable_ipv6 l = 0%nat /\
  Forall (fun ev => is_route_add ev = false) l.
Proof.
  unfold count_events.
  induction 1 as [|ev l Hev _ (IH1 & IH2 & IH3)]; simpl; [done|].
  destruct ev; simpl in *; try done; by repeat split; try constructor.
Qed.

Lemma tail_events_facts (l : list Event) :
  Forall (fun ev => is_tail_event ev = true) l ->
  List.filter is_add_ip l = [] /\ count_events is_enable_ipv6 l = 0%nat.
Proof.
  unfold count_events.
  induction 1 as [|ev l Hev _ (IH1 & IH2)]; simpl; [done|].
  destruct ev; simpl in *; done.
Qed.

Lemma address_events_no_route (l : list Event) :
  Forall (fun ev => is_ipv6_event ev = true \/ is_add_ip ev = true) l ->
  Forall (fun ev => is_route_add ev = false) l.
Proof.
  intros H. eapply Forall_impl; [exact H|].
  intros ev [Hev|Hev]; by destruct ev.
Qed.

Lemma filter_add_ip_nil (l : list Event) ifn ip :
  List.filter is_add_ip l = [] -> AddIp ifn ip ∉ l.
Proof.
  intros Hnil Hin. apply list_elem_of_In in Hin.
  assert (In (AddIp ifn ip) (List.filter is_add_ip l)) as H
    by (by apply filter_In).
  by rewrite Hnil in H.
Qed.

Lemma not_route_add_elem (l : list Event) ev :
  Forall (fun ev => is_route_add ev = false) l -> is_route_add ev = true -> ev ∉ l.
Proof.
  rewrite Forall_forall. intros H Hev Hin. specialize (H _ Hin). congruence.
Qed.

(** The first loop of a shape adds no route, and what it emits before
    [_enable_ipv6] is entered are addresses of subnets that are not IPv6. *)
Lemma shape_addresses_facts ifname netns subnets ok addr :
  (addr = [] /\ ok = false) \/ address_trace ifname netns subnets ok addr ->
  (count_events is_enable_ipv6 addr <= ipv6_subnets subnets)%nat /\
  (ok = true ->
     count_events is_enable_ipv6 addr = ipv6_subnets subnets /\
     List.filter is_add_ip addr = all_add_ips ifname subnets) /\
  Forall (fun ev => is_route_add ev = false) addr /\
  (forall pre post ifn ip,
     addr = pre ++ post -> count_events is_enable_ipv6 pre = 0%nat ->
     AddIp ifn ip ∈ pre -> of_non_ipv6_subnet subnets ip).
Proof.
  intros [[-> ->]|Htr].
  - split; [apply Nat.le_0_l|]. split; [done|]. split; [done|].
    intros pre post ifn ip Heq _ Hin. symmetry in Heq.
    apply app_eq_nil in Heq as [-> _]. by apply elem_of_nil in Hin.
  - destruct (address_trace_facts _ _ _ _ _ Htr) as (H1 & H2 & H3).
    split; [done|]. split; [done|].
    split; [by apply address_events_no_route|].
    intros pre post ifn ip Heq Hcnt Hin.
    by eapply address_trace_before_enable.
Qed.

(** ** [_need_configure_l3], [connect] and [disconnect] *)

Lemma after_nil w : after w [] = w.
Proof. unfold after. rewrite app_nil_r. by destruct w. Qed.

Lemma record_after w evs ev : record ev (after w evs) = after w (evs ++ [ev]).
Proof. unfold record, after. simpl. by rewrite <- app_assoc. Qed.

Lemma call_after w evs ev :
  call ev (after w evs) =
  (match env (trace w ++ evs) ev with None => Ok tt | Some e => Raise e end,
   after w (evs ++ [ev])).
Proof.
  unfold call. rewrite record_after. simpl. by destruct (env _ ev).
Qed.

Lemma emit_after w evs ev : emit ev (after w evs) = (Ok tt, after w (evs ++ [ev])).
Proof. unfold emit. by rewrite record_after. Qed.

(** [_need_configure_l3] asks nothing of the environment: its outcome and
    the lines it logs are the same in every world. *)
Lemma need_configure_l3_run vif :
  exists r logs,
    (forall w, _need_configure_l3 vif w = (r, after w logs)) /\
    Forall (fun ev => is_log ev = true) logs /\
    (r = Ok true -> logs = []).
Proof.
  unfold _need_configure_l3.
  destruct (vif_physnet vif) as [physnet|].
  2:{ exists (Ok true), []. split; [|done]. intros w. by rewrite after_nil. }
  destruct (sriov_physnet_resource_mappings !! physnet) as [resource|].
  2:{ eexists _, [_]. split.
      - intros w. unfold bind. rewrite <- (after_nil w) at 1.
        rewrite emit_after. done.
      - split; [by repeat constructor|done]. }
  destruct (sriov_resource_driver_mappings !! resource) as [driver_name|].
  2:{ eexists _, [_]. split.
      - intros w. unfold bind. rewrite <- (after_nil w) at 1.
        rewrite emit_after. done.
      - split; [by repeat constructor|done]. }
  destruct (bool_decide _).
  - eexists _, [_]. split.
    + intros w. unfold bind. rewrite <- (after_nil w) at 1.
      rewrite emit_after. done.
    + split; [by repeat constructor|done].
  - exists (Ok true), []. split; [|done]. intros w. by rewrite after_nil.
Qed.

Lemma get_binding_driver_after vif w evs :
  let resolve := DriverManager _BINDING_NAMESPACE (vif_type_name vif) in
  _get_binding_driver vif (after w evs) =
  ((if bool_decide (vif_type_name vif ∈ plugins)
    then match env (trace w ++ evs) resolve with
         | None => Ok (vif_type_name vif)
         | Some e => Raise e
         end
    else Raise (NoMatches _BINDING_NAMESPACE (vif_type_name vif))),
   after w (evs ++ [resolve])).
Proof.
  unfold _get_binding_driver, bind. destruct (bool_decide _).
  - rewrite call_after. by destruct (env _ _).
  - by rewrite emit_after.
Qed.

Lemma get_binding_driver_run vif w :
  let resolve := DriverManager _BINDING_NAMESPACE (vif_type_name vif) in
  _get_binding_driver vif w =
  ((if bool_decide (vif_type_name vif ∈ plugins)
    then match env (trace w) resolve with
         | None => Ok (vif_type_name vif)
         | Some e => Raise e
         end
    else Raise (NoMatches _BINDING_NAMESPACE (vif_type_name vif))),
   after w [resolve]).
Proof.
  intros resolve. rewrite <- (after_nil w) at 1.
  rewrite get_binding_driver_after. by rewrite app_nil_r.
Qed.

Lemma connect_cases vif instance_info ifname netns is_default_gateway
    container_id w :
  connect_steps vif instance_info ifname netns is_default_gateway container_id w
    (connect vif instance_info ifname netns is_default_gateway container_id w).
Proof.
  unfold connect_steps.
  replace (connect vif instance_info ifname netns is_default_gateway
             container_id w)
    with (connect vif instance_info ifname netns is_default_gateway
            container_id (after w [])) by (by rewrite after_nil).
  unfold connect, convert_netns, osvif_vif_to_dict, bind, ret.
  rewrite call_after. rewrite app_nil_r. simpl.
  destruct (env (trace w) (ConvertNetns netns)) as [e|] eqn:E1.
  { left. by exists e. }
  right. cbn beta iota zeta.
  rewrite get_binding_driver_after. simpl.
  destruct (if bool_decide (vif_type_name vif ∈ plugins) then _ else _)
    as [driver|e] eqn:E2.
  2:{ left. by exists e. }
  assert (driver = vif_type_name vif) as ->.
  { revert E2. destruct (bool_decide _); [|done].
    destruct (env _ (DriverManager _ _)); [done|]. intros H. by injection H. }
  right. cbn beta iota zeta. rewrite call_after. simpl.
  destruct (env _ (Plug vif instance_info)) as [e|] eqn:E3.
  { left. by exists e. }
  right. cbn beta iota zeta. rewrite call_after. simpl.
  destruct (env _ (DriverConnect _ _ _ _ _)) as [e|] eqn:E4.
  { left. by exists e. }
  right. cbn beta iota zeta.
  destruct (need_configure_l3_run vif) as (r & logs & Hneed & Hlogs & Htrue).
  set (bound := [ConvertNetns netns; _; _; _]).
  assert (forall evs, _need_configure_l3 vif (after w evs) =
                      (r, after w (evs ++ logs))) as Hneed'.
  { intros evs. rewrite Hneed. unfold after. simpl. by rewrite <- app_assoc. }
  rewrite !Hneed'.
  destruct r as [[|]|e]; cbn beta iota zeta.
  - rewrite (Htrue eq_refl), app_nil_r in *. right. right.
    rewrite call_after.
    destruct (env _ (OsvifVifToDict vif)) as [e|] eqn:E6; cbn beta iota zeta.
    + left. by exists e.
    + right. done.
  - right. left. by exists logs.
  - left. by exists e, logs.
Qed.

Lemma no_route_add_count (l : list Event) :
  Forall (fun ev => is_route_add ev = false) l ->
  count_events is_default_route_add l = 0%nat.
Proof.
  intros H. apply count_events_none. eapply Forall_impl; [exact H|].
  intros ev Hev. by destruct ev.
Qed.

Lemma configure_l3_default_routes vif_dict ifname netns is_default_gateway w :
  exists evs,
    trace (_configure_l3 vif_dict ifname netns is_default_gateway w).2 =
      trace w ++ evs /\
    (count_events is_default_route_add evs <=
       default_route_bound (network_subnets (vd_network vif_dict))
         is_default_gateway)%nat.
Proof.
  destruct (configure_l3_emits vif_dict ifname netns is_default_gateway w)
    as (evs & Htr & setup & addr & tail & ok & -> & Hs & Ha & Ht & Hcnt & _).
  exists (setup ++ addr ++ tail). split; [exact Htr|].
  destruct (setup_events_facts _ Hs) as (_ & _ & Hs3).
  destruct (shape_addresses_facts _ _ _ _ _ Ha) as (_ & _ & Ha3 & _).
  rewrite !count_events_app, (no_route_add_count _ Hs3),
    (no_route_add_count _ Ha3).
  exact Hcnt.
Qed.

(** When the L3 policy does not say yes, [connect] does nothing of what
    [_configure_l3] does. *)
Lemma connect_without_l3 vif instance_info ifname netns is_default_gateway
    container_id w :
  (forall w', (_need_configure_l3 vif w').1 <> Ok true) ->
  exists evs,
    trace (connect vif instance_info ifname netns is_default_gateway
             container_id w).2 = trace w ++ evs /\
    Forall (fun ev => is_l3_event ev = false) evs.
Proof.
  intros Hneed.
  assert (forall logs, Forall (fun ev => is_log ev = true) logs ->
                       Forall (fun ev => is_l3_event ev = false) logs) as Hlogs.
  { intros logs H. eapply Forall_impl; [exact H|]. intros ev Hev.
    by destruct ev. }
  destruct (connect_cases vif instance_info ifname netns is_default_gateway
              container_id w)
    as [(e & _ & ->)|[(e & _ & _ & ->)|[(e & _ & ->)|[(e & _ & ->)|
        [(e & logs & _ & Hl & ->)|[(logs & _ & Hl & ->)|
        [(e & Hn & _)|(Hn & _)]]]]]]]; simpl.
  - eexists. split; [done|]. by repeat constructor.
  - eexists. split; [done|]. by repeat constructor.
  - eexists. split; [done|]. by repeat constructor.
  - eexists. split; [done|]. by repeat constructor.
  - eexists. split; [done|]. repeat (constructor; [done|]). by apply Hlogs.
  - eexists. split; [done|]. repeat (constructor; [done|]). by apply Hlogs.
  - exfalso. eapply Hneed. by rewrite Hn.
  - exfalso. eapply Hneed. by rewrite Hn.
Qed.

(** ** The namespace of the process *)

Lemma keeps_ns_ret {A} (a : A) : keeps_ns (ret a).
Proof. done. Qed.

Lemma keeps_ns_raise {A} e : keeps_ns (@raise A e).
Proof. done. Qed.

Lemma keeps_ns_emit ev : keeps_ns (emit ev).
Proof. done. Qed.

Lemma keeps_ns_call ev : keeps_ns (call ev).
Proof. intros w. unfold call. by destruct (env _ _). Qed.

Lemma keeps_ns_bind {A B} (m : M A) (k : A -> M B) :
  keeps_ns m -> (forall a, keeps_ns (k a)) -> keeps_ns (bind m k).
Proof.
  intros Hm Hk w. unfold bind. specialize (Hm w).
  destruct (m w) as [[a|e] w1]; simpl in *; [|done].
  by rewrite Hk.
Qed.

Lemma keeps_ns_try_finally {A} (body : M A) (fin : M unit) :
  keeps_ns body -> keeps_ns fin -> keeps_ns (try_finally body fin).
Proof.
  intros Hb Hf w. unfold try_finally. specialize (Hb w).
  destruct (body w) as [r w1]; simpl in *. specialize (Hf w1).
  destruct (fin w1) as [[[]|e] w2]; simpl in *; congruence.
Qed.

Lemma keeps_ns_try_except {A} (body : M A) (handler : Exn -> M A) :
  keeps_ns body -> (forall e, keeps_ns (handler e)) ->
  keeps_ns (try_except body handler).
Proof.
  intros Hb Hh w. unfold try_except. specialize (Hb w).
  destruct (body w) as [[a|e] w1]; simpl in *; [done|].
  by rewrite Hh.
Qed.

Lemma keeps_ns_for_each {A} (l : list A) (body : A -> M unit) :
  (forall x, keeps_ns (body x)) -> keeps_ns (for_each l body).
Proof.
  intros Hbody. induction l as [|x l IH]; simpl.
  - apply keeps_ns_ret.
  - apply keeps_ns_bind; [apply Hbody|]. intros u. exact IH.
Qed.

Lemma keeps_ns_convert_netns netns : keeps_ns (convert_netns netns).
Proof.
  apply keeps_ns_bind; [apply keeps_ns_call|]. intros u. apply keeps_ns_ret.
Qed.

Lemma keeps_ns_get_ipdb netns : keeps_ns (get_ipdb netns).
Proof.
  unfold get_ipdb. destruct netns as [p|]; [|apply keeps_ns_call].
  destruct (negb _); [|apply keeps_ns_call].
  apply keeps_ns_bind; [apply keeps_ns_call|]. intros u. apply keeps_ns_call.
Qed.

Lemma keeps_ns_configure_routes vif_dict subnets is_default_gateway :
  keeps_ns (configure_routes vif_dict subnets is_default_gateway).
Proof.
  apply keeps_ns_for_each. intros s. apply keeps_ns_bind.
  - apply keeps_ns_for_each. intros route. apply keeps_ns_call.
  - intros u. unfold add_default_route.
    destruct is_default_gateway; [|apply keeps_ns_ret].
    destruct (subnet_gateway s); [|apply keeps_ns_ret].
    apply keeps_ns_try_except; [apply keeps_ns_call|].
    intros [|code| | |]; try apply keeps_ns_raise.
    destruct (negb _); [apply keeps_ns_raise|apply keeps_ns_emit].
Qed.

(** When the [try] block of [_enable_ipv6] is left, [self_ns_fd], if bound,
    is the file of the namespace the process was in; if it is not bound, the
    process is still there. *)
Lemma enable_ipv6_try_ns netns w :
  match (enable_ipv6_try netns w).1.2 with
  | Some fd => fd = active_ns w
  | None => active_ns (enable_ipv6_try netns w).2 = active_ns w
  end.
Proof.
  unfold enable_ipv6_try.
  pose proof (keeps_ns_convert_netns (Some "/proc/self/ns/net") w) as H1.
  destruct (convert_netns _ w) as [[path|e] w1]; simpl in *; [|done].
  unfold open_ns_file.
  destruct (env (trace w1) (OpenFile path "r")) as [e|]; simpl; [done|].
  by destruct (bind _ _ _) as [r w3].
Qed.

Section Restoring.

(** Going back into the namespace of [self_ns_fd] does not raise. *)
Hypothesis restore_succeeds :
  forall tr ns, env tr (Setns (NsByFile ns)) = None.

Lemma keeps_ns_enable_ipv6 netns : keeps_ns (_enable_ipv6 netns).
Proof.
  intros w. unfold _enable_ipv6, bind, emit.
  set (w0 := record (CallEnableIPv6 netns) w).
  pose proof (enable_ipv6_try_ns netns w0) as Htry.
  destruct (enable_ipv6_try netns w0) as [[r fd] w1]; simpl in *.
  destruct fd as [fd|]; simpl.
  - unfold setns. rewrite restore_succeeds. simpl. exact Htry.
  - exact Htry.
Qed.

Lemma keeps_ns_configure_l3 vif_dict ifname netns is_default_gateway :
  keeps_ns (_configure_l3 vif_dict ifname netns is_default_gateway).
Proof.
  unfold _configure_l3.
  apply keeps_ns_bind; [apply keeps_ns_call|]. intros u.
  apply keeps_ns_bind; [apply keeps_ns_get_ipdb|]. intros u'.
  apply keeps_ns_try_finally; [|apply keeps_ns_emit].
  apply keeps_ns_bind; [|intros u''; apply keeps_ns_configure_routes].
  unfold with_iface.
  apply keeps_ns_bind; [apply keeps_ns_call|]. intros u''.
  apply keeps_ns_bind; [|intros u3; apply keeps_ns_call].
  apply keeps_ns_for_each. intros s.
  apply keeps_ns_bind.
  - destruct (Z.eqb _ 6); [apply keeps_ns_enable_ipv6|apply keeps_ns_ret].
  - intros u3. apply keeps_ns_for_each. intros fip. apply keeps_ns_call.
Qed.

End Restoring.

(** ** Failures of route additions *)

Lemma handles_only vif_dict tail (P : Event -> Prop) {A} (m : M A) :
  only P m -> (forall ev, P ev -> is_route_add ev = false) ->
  handles vif_dict tail m.
Proof.
  intros Hm HP w. destruct (Hm w) as (evs & Htr & Hall).
  exists evs. split; [done|]. intros pre ev rest e -> _.
  apply Forall_app in Hall as [_ Hall]. apply Forall_cons in Hall as [Hev _].
  apply HP in Hev. by destruct ev.
Qed.

Lemma handles_call_route_add vif_dict gateway dst :
  handles vif_dict [] (call (RouteAdd gateway dst)).
Proof.
  intros w. exists [RouteAdd gateway dst]. unfold call.
  split; [by destruct (env _ _)|].
  intros pre ev rest e Heq Henv.
  destruct pre as [|ev' pre]; simpl in Heq.
  - injection Heq as <- <-. rewrite app_nil_r in Henv. rewrite Henv. done.
  - injection Heq as _ Heq. by destruct pre.
Qed.

Lemma handles_add_default_route vif_dict subnet is_default_gateway :
  handles vif_dict [] (add_default_route vif_dict subnet is_default_gateway).
Proof.
  unfold add_default_route.
  destruct is_default_gateway;
    [|by apply (handles_only _ _ (fun _ => False)); [apply only_ret|]].
  destruct (subnet_gateway subnet) as [gateway|];
    [|by apply (handles_only _ _ (fun _ => False)); [apply only_ret|]].
  intros w. unfold try_except, call.
  destruct (env (trace w) (DefaultRouteAdd gateway)) as [ex|] eqn:Henv.
  - assert (forall pre ev rest e (tl : list Event),
              [DefaultRouteAdd gateway] ++ tl = pre ++ ev :: rest ->
              env (trace w ++ pre) ev = Some e ->
              (pre = [] /\ ev = DefaultRouteAdd gateway /\ rest = tl /\ e = ex) \/
              (exists p2, pre = DefaultRouteAdd gateway :: p2 /\
                          tl = p2 ++ ev :: rest)) as Hpos.
    { intros pre ev rest e tl Heq He. destruct pre as [|ev' pre]; simpl in Heq.
      - injection Heq as <- <-. left. rewrite app_nil_r, Henv in He.
        by injection He.
      - injection Heq as <- Heq. right. by exists pre. }
    destruct ex as [|code| | |];
      try (exists [DefaultRouteAdd gateway]; split; [done|];
           intros pre ev rest e Heq He;
           destruct (Hpos pre ev rest e [] Heq He)
             as [(-> & -> & -> & ->)|(p2 & _ & Hnil)];
           [by split|by destruct p2]).
    destruct (Z.eqb code EEXIST) eqn:Hcode; simpl.
    + apply Z.eqb_eq in Hcode as ->.
      exists ([DefaultRouteAdd gateway] ++
              [default_route_exists_log vif_dict gateway]).
      split; [by rewrite <- app_assoc|].
      intros pre ev rest e Heq He.
      destruct (Hpos pre ev rest e _ Heq He)
        as [(-> & -> & -> & ->)|(p2 & _ & Hlog)].
      * split; [by eexists|done].
      * destruct p2 as [|ev' p2]; simpl in Hlog.
        -- by injection Hlog as <- _.
        -- injection Hlog as _ Hlog. by destruct p2.
    + apply Z.eqb_neq in Hcode.
      exists [DefaultRouteAdd gateway]. split; [done|].
      intros pre ev rest e Heq He.
      destruct (Hpos pre ev rest e [] Heq He)
        as [(-> & -> & -> & ->)|(p2 & _ & Hnil)]; [|by destruct p2].
      split; [|done]. intros [= ?]. done.
  - exists [DefaultRouteAdd gateway]. split; [done|].
    intros pre ev rest e Heq He. destruct pre as [|ev' pre]; simpl in Heq.
    + injection Heq as <- <-. rewrite app_nil_r in He. congruence.
    + injection Heq as _ Heq. by destruct pre.
Qed.

(** A failure dealt with in a computation that went on is dealt with in
    what follows it. *)
Lemma route_failure_handled_extend vif_dict ev e out rest more :
  route_failure_handled vif_dict [] ev e None rest ->
  route_failure_handled vif_dict [] ev e out (rest ++ more).
Proof.
  destruct ev; simpl; try done.
  - by intros [? _].
  - intros [H1 H2]. split.
    + intros He. destruct (H1 He) as [rest' ->]. by eexists.
    + intros He. by destruct (H2 He).
Qed.

Lemma handles_bind vif_dict {A B} (m : M A) (k : A -> M B) :
  handles vif_dict [] m -> (forall a, handles vif_dict [] (k a)) ->
  handles vif_dict [] (bind m k).
Proof.
  intros Hm Hk w. unfold bind.
  destruct (Hm w) as (evs1 & Htr1 & H1).
  destruct (m w) as [[a|e'] w1]; simpl in *; [|by exists evs1].
  destruct (Hk a w1) as (evs2 & Htr2 & H2).
  exists (evs1 ++ evs2). split; [by rewrite Htr2, Htr1, app_assoc|].
  intros pre ev rest e Heq He.
  apply app_eq_app_cons in Heq as [(r1 & -> & ->)|(p2 & -> & ->)].
  - apply route_failure_handled_extend. by eapply H1.
  - eapply H2; [done|]. by rewrite Htr1, <- app_assoc.
Qed.

Lemma handles_for_each vif_dict {A} (l : list A) (body : A -> M unit) :
  (forall x, handles vif_dict [] (body x)) ->
  handles vif_dict [] (for_each l body).
Proof.
  intros Hbody. induction l as [|x l IH]; simpl.
  - by apply (handles_only _ _ (fun _ => False)); [apply only_ret|].
  - apply handles_bind; [apply Hbody|]. intros u. exact IH.
Qed.

Lemma handles_configure_routes vif_dict subnets is_default_gateway :
  handles vif_dict [] (configure_routes vif_dict subnets is_default_gateway).
Proof.
  apply handles_for_each. intros s. apply handles_bind.
  - apply handles_for_each. intros route. apply handles_call_route_add.
  - intros u. apply handles_add_default_route.
Qed.

Lemma handles_bind_only vif_dict tail (P : Event -> Prop) {A B}
    (m : M A) (k : A -> M B) :
  only P m -> (forall ev, P ev -> is_route_add ev = false) ->
  (forall a, handles vif_dict tail (k a)) ->
  handles vif_dict tail (bind m k).
Proof.
  intros Hm HP Hk w. unfold bind.
  destruct (Hm w) as (evs1 & Htr1 & H1).
  assert (forall pre ev r1, evs1 = pre ++ ev :: r1 -> is_route_add ev = false)
    as Hnot.
  { intros pre ev r1 ->. apply Forall_app in H1 as [_ H1].
    apply Forall_cons in H1 as [Hev _]. by apply HP. }
  destruct (m w) as [[a|e'] w1]; simpl in *.
  - destruct (Hk a w1) as (evs2 & Htr2 & H2).
    exists (evs1 ++ evs2). split; [by rewrite Htr2, Htr1, app_assoc|].
    intros pre ev rest e Heq He.
    apply app_eq_app_cons in Heq as [(r1 & Heq & ->)|(p2 & -> & ->)].
    + apply Hnot in Heq. by destruct ev.
    + eapply H2; [done|]. by rewrite Htr1, <- app_assoc.
  - exists evs1. split; [done|]. intros pre ev rest e Heq He.
    apply Hnot in Heq. by destruct ev.
Qed.

Lemma handles_release vif_dict {A} (body : M A) :
  handles vif_dict [] body ->
  handles vif_dict [ReleaseIPDB] (try_finally body (emit ReleaseIPDB)).
Proof.
  intros Hb w. unfold try_finally, emit.
  destruct (Hb w) as (evs1 & Htr1 & H1).
  destruct (body w) as [r w1]; simpl in *.
  exists (evs1 ++ [ReleaseIPDB]). split; [by rewrite Htr1, <- app_assoc|].
  intros pre ev rest e Heq He.
  apply app_eq_app_cons in Heq as [(r1 & -> & ->)|(p2 & -> & Heq)].
  - specialize (H1 _ _ _ _ eq_refl He). destruct ev; simpl in *; try done.
    + by destruct H1 as [-> ->].
    + destruct H1 as [H1 H2]. split.
      * intros Hex. destruct (H1 Hex) as [rest' ->]. by eexists.
      * intros Hex. by destruct (H2 Hex) as [-> ->].
  - destruct p2 as [|ev' p2]; simpl in Heq.
    + by injection Heq as <- _.
    + injection Heq as _ Heq. by destruct p2.
Qed.

Lemma handles_configure_l3 vif_dict ifname netns is_default_gateway :
  handles vif_dict [ReleaseIPDB]
    (_configure_l3 vif_dict ifname netns is_default_gateway).
Proof.
  unfold _configure_l3.
  apply (handles_bind_only _ _ (fun ev => is_setup_event ev = true));
    [by apply only_call|by intros []|]. intros u.
  apply (handles_bind_only _ _ (fun ev => is_setup_event ev = true));
    [by apply only_get_ipdb|by intros []|]. intros u'.
  apply handles_release. apply handles_bind.
  - apply (handles_only _ _
             (fun ev => is_setup_event ev = true \/ is_tail_event ev = true /\
                        is_route_add ev = false \/
                        is_ipv6_event ev = true \/ is_add_ip ev = true)).
    + unfold with_iface.
      apply only_bind; [apply only_call; by left|]. intros u''.
      apply only_bind; [|intros u3; apply only_call; right; by left].
      eapply emits_mono; [apply configure_addresses_emits|].
      simpl. intros r evs Htr.
      destruct (address_trace_facts _ _ _ _ _ Htr) as (_ & _ & H).
      eapply Forall_impl; [exact H|]. intros ev Hev. right. by right.
    + intros ev [Hev|[[_ Hev]|[Hev|Hev]]]; by destruct ev.
  - intros u''. apply handles_configure_routes.
Qed.

Section Benign.

(** The only failure the environment produces is that of a default route
    that exists already. *)
Hypothesis only_default_route_exists :
  forall tr ev e,
    env tr ev = Some e ->
    is_default_route_add ev = true /\ e = NetlinkError EEXIST.

Lemma benign_env_none tr ev : is_default_route_add ev = false -> env tr ev = None.
Proof.
  intros Hev. destruct (env tr ev) as [e|] eqn:E; [|done].
  apply only_default_route_exists in E as [? _]. congruence.
Qed.

Lemma succeeds_ret {A} (a : A) : succeeds (ret a).
Proof. done. Qed.

Lemma succeeds_emit ev : succeeds (emit ev).
Proof. done. Qed.

Lemma succeeds_call ev : is_default_route_add ev = false -> succeeds (call ev).
Proof. intros Hev w. unfold call. by rewrite benign_env_none. Qed.

Lemma succeeds_bind {A B} (m : M A) (k : A -> M B) :
  succeeds m -> (forall a, succeeds (k a)) -> succeeds (bind m k).
Proof.
  intros Hm Hk w. unfold bind. specialize (Hm w).
  destruct (m w) as [[a|e] w1]; simpl in *; [apply Hk|done].
Qed.

Lemma succeeds_try_finally {A} (body : M A) (fin : M unit) :
  succeeds body -> succeeds fin -> succeeds (try_finally body fin).
Proof.
  intros Hb Hf w. unfold try_finally. specialize (Hb w).
  destruct (body w) as [r w1]; simpl in *. specialize (Hf w1).
  by destruct (fin w1) as [[[]|e] w2].
Qed.

Lemma succeeds_for_each {A} (l : list A) (body : A -> M unit) :
  (forall x, succeeds (body x)) -> succeeds (for_each l body).
Proof.
  intros Hbody. induction l as [|x l IH]; simpl; [done|].
  apply succeeds_bind; [apply Hbody|]. intros u. exact IH.
Qed.

Lemma succeeds_enable_ipv6 netns : succeeds (_enable_ipv6 netns).
Proof.
  intros w.
  unfold _enable_ipv6, enable_ipv6_try, enable_ipv6_finally, convert_netns,
    open_ns_file, write_file, try_finally, setns, call, bind, emit, ret.
  simpl. repeat (rewrite benign_env_none by done; simpl). done.
Qed.

Lemma succeeds_add_default_route vif_dict subnet is_default_gateway :
  succeeds (add_default_route vif_dict subnet is_default_gateway).
Proof.
  intros w. unfold add_default_route.
  destruct is_default_gateway; [|done].
  destruct (subnet_gateway subnet) as [gateway|]; [|done].
  unfold try_except, call.
  destruct (env _ _) as [e|] eqn:E; [|done].
  apply only_default_route_exists in E as [_ ->]. done.
Qed.

Lemma succeeds_configure_l3 vif_dict ifname netns is_default_gateway :
  succeeds (_configure_l3 vif_dict ifname netns is_default_gateway).
Proof.
  unfold _configure_l3.
  apply succeeds_bind; [by apply succeeds_call|]. intros u.
  apply succeeds_bind.
  { unfold get_ipdb. destruct netns as [p|]; [|by apply succeeds_call].
    destruct (negb _); [|by apply succeeds_call].
    apply succeeds_bind; [by apply succeeds_call|]. intros u'.
    by apply succeeds_call. }
  intros u'. apply succeeds_try_finally; [|apply succeeds_emit].
  apply succeeds_bind.
  - unfold with_iface.
    apply succeeds_bind; [by apply succeeds_call|]. intros u''.
    apply succeeds_bind; [|intros u3; by apply succeeds_call].
    apply succeeds_for_each. intros s. apply succeeds_bind.
    + destruct (Z.eqb _ 6); [apply succeeds_enable_ipv6|apply succeeds_ret].
    + intros u3. apply succeeds_for_each. intros fip. by apply succeeds_call.
  - intros u''. apply succeeds_for_each. intros s. apply succeeds_bind.
    + apply succeeds_for_each. intros route. by apply succeeds_call.
    + intros u3. apply succeeds_add_default_route.
Qed.

End Benign.

(** ** The claims *)

(** C2, as amended.  In every call of [_configure_l3], [_enable_ipv6] is
    entered once for each IPv6 subnet the first loop reaches: never more
    often than the VIF has IPv6 subnets (so not at all when it has none),
    exactly that often when the call returns.  Every address added before
    [_enable_ipv6] is first entered is an address of a subnet that is not
    IPv6. *)
Theorem enable_ipv6_per_ipv6_subnet vif_dict ifname netns is_default_gateway w :
  let subnets := network_subnets (vd_network vif_dict) in
  let run := _configure_l3 vif_dict ifname netns is_default_gateway w in
  exists evs,
    trace run.2 = trace w ++ evs /\
    (count_events is_enable_ipv6 evs <= ipv6_subnets subnets)%nat /\
    (returned run.1 = true ->
       count_events is_enable_ipv6 evs = ipv6_subnets subnets) /\
    (forall pre post ifn ip,
       evs = pre ++ post ->
       count_events is_enable_ipv6 pre = 0%nat ->
       AddIp ifn ip ∈ pre ->
       of_non_ipv6_subnet subnets ip).
Proof.
  intros subnets run.
  destruct (configure_l3_emits vif_dict ifname netns is_default_gateway w)
    as (evs & Htr & setup & addr & tail & ok & -> & Hs & Ha & Ht & _ & Hfail & _).
  exists (setup ++ addr ++ tail). split; [exact Htr|].
  destruct (setup_events_facts _ Hs) as (Hs1 & Hs2 & _).
  destruct (tail_events_facts _ Ht) as (Ht1 & Ht2).
  destruct (shape_addresses_facts _ _ _ _ _ Ha) as (Ha1 & Ha2 & _ & Ha4).
  rewrite !count_events_app, Hs2, Ht2.
  split; [fold subnets in Ha1; lia|]. split.
  - intros Hr. destruct ok.
    + destruct (Ha2 eq_refl) as [Heq _]. fold subnets in Heq. lia.
    + destruct (Hfail eq_refl) as [_ Hr']. fold run in Hr'. congruence.
  - intros pre post ifn ip Heq Hcnt Hin.
    apply List.app_eq_app in Heq as (l & [[-> Heq]|[-> Heq]]).
    + (* [pre] ends in the set-up *)
      exfalso. eapply (filter_add_ip_nil _ ifn ip); [exact Hs1|].
      rewrite elem_of_app. by left.
    + rewrite count_events_app in Hcnt.
      apply elem_of_app in Hin as [Hin|Hin];
        [by eapply filter_add_ip_nil in Hin|].
      apply List.app_eq_app in Heq as (l' & [[-> Heq]|[-> Heq]]).
      * (* [pre] ends in the first loop *)
        eapply Ha4; [done|lia|done].
      * (* [pre] ends after the first loop *)
        rewrite count_events_app in Hcnt.
        apply elem_of_app in Hin as [Hin|Hin].
        -- eapply (Ha4 addr []); [by rewrite app_nil_r|lia|done].
        -- exfalso. eapply (filter_add_ip_nil _ ifn ip); [exact Ht1|].
           rewrite Heq, elem_of_app. by left.
Qed.

(** C10.  In every call of [_configure_l3], when a route (explicit or
    default) is added, every address of every subnet has been added, in
    order, and the addresses have been committed; no address is added
    after a route. *)
Theorem addresses_before_routes vif_dict ifname netns is_default_gateway w :
  let subnets := network_subnets (vd_network vif_dict) in
  let run := _configure_l3 vif_dict ifname netns is_default_gateway w in
  exists evs,
    trace run.2 = trace w ++ evs /\
    forall pre ev post,
      evs = pre ++ ev :: post ->
      is_route_add ev = true ->
      List.filter is_add_ip pre = all_add_ips ifname subnets /\
      IfaceCommit ifname ∈ pre /\
      List.filter is_add_ip post = [].
Proof.
  intros subnets run.
  destruct (configure_l3_emits vif_dict ifname netns is_default_gateway w)
    as (evs & Htr & setup & addr & tail & ok & -> & Hs & Ha & Ht & _ & Hfail & Hok).
  exists (setup ++ addr ++ tail). split; [exact Htr|].
  intros pre ev post Heq Hev.
  destruct (setup_events_facts _ Hs) as (Hs1 & _ & Hs3).
  destruct (tail_events_facts _ Ht) as (Ht1 & _).
  destruct (shape_addresses_facts _ _ _ _ _ Ha) as (_ & Ha2 & Ha3 & _).
  apply app_eq_app_cons in Heq as [(r1 & Heq & _)|(p2 & -> & Heq)].
  { exfalso. eapply (not_route_add_elem setup ev); [done..|].
    rewrite Heq, elem_of_app. right. left. }
  apply app_eq_app_cons in Heq as [(r1 & Heq & _)|(p3 & -> & Heq)].
  { exfalso. eapply (not_route_add_elem addr ev); [done..|].
    rewrite Heq, elem_of_app. right. left. }
  destruct ok.
  2:{ exfalso. destruct (Hfail eq_refl) as [Hnr _].
      eapply (not_route_add_elem tail ev); [done..|].
      rewrite Heq, elem_of_app. right. left. }
  destruct (Ha2 eq_refl) as [_ Hall]. destruct (Hok eq_refl) as [tail' Htail].
  rewrite Heq in Ht1. rewrite List.filter_app in Ht1.
  apply app_eq_nil in Ht1 as [Hp3 Hpost]. simpl in Hpost.
  destruct (is_add_ip ev) eqn:E; [done|].
  rewrite !List.filter_app, Hs1, Hall, Hp3, app_nil_r. simpl.
  split; [done|]. split; [|done].
  rewrite Heq in Htail. destruct p3 as [|ev' p3]; simpl in Htail.
  - injection Htail as -> _. done.
  - injection Htail as -> _. rewrite !elem_of_app. right. right. left.
Qed.

(** C1, as amended.  When no plugin is registered under the type name of
    the VIF, [connect] ends at the resolution of the driver: [netns] has
    been normalized, [os_vif.plug] has not been called and is not called,
    nothing else runs, and the exception is stevedore's [NoMatches], which
    names the namespace and the type name of the VIF. *)
Theorem unresolved_driver_ends_connect vif instance_info ifname netns
    is_default_gateway container_id w :
  vif_type_name vif ∉ plugins ->
  env (trace w) (ConvertNetns netns) = None ->
  connect vif instance_info ifname netns is_default_gateway container_id w =
    (Raise (NoMatches _BINDING_NAMESPACE (vif_type_name vif)),
     after w [ConvertNetns netns;
              DriverManager _BINDING_NAMESPACE (vif_type_name vif)]).
Proof.
  intros Hnot Hnorm.
  replace (connect vif instance_info ifname netns is_default_gateway
             container_id w)
    with (connect vif instance_info ifname netns is_default_gateway
            container_id (after w [])) by (by rewrite after_nil).
  unfold connect, convert_netns, bind, ret.
  rewrite call_after, app_nil_r, Hnorm. cbn beta iota zeta.
  rewrite get_binding_driver_after.
  by rewrite bool_decide_eq_false_2.
Qed.

(** C3, as amended.  In every call of [connect], a default route is asked
    for at most once for each subnet of the snapshot that has a gateway, and
    not at all when [is_default_gateway] is false. *)
Theorem default_route_per_gateway_subnet vif instance_info ifname netns
    is_default_gateway container_id w :
  let subnets := network_subnets (vd_network (osvif_vif_to_dict_value vif)) in
  let run :=
    connect vif instance_info ifname netns is_default_gateway container_id w in
  exists evs,
    trace run.2 = trace w ++ evs /\
    (count_events is_default_route_add evs <=
       if is_default_gateway then gateway_subnets subnets else 0)%nat.
Proof.
  intros subnets run.
  assert (forall logs, Forall (fun ev => is_log ev = true) logs ->
                       count_events is_default_route_add logs = 0%nat) as Hlogs.
  { intros logs H. apply count_events_none. eapply Forall_impl; [exact H|].
    intros ev Hev. by destruct ev. }
  destruct (connect_cases vif instance_info ifname netns is_default_gateway
              container_id w)
    as [(e & _ & Hrun)|[(e & _ & _ & Hrun)|[(e & _ & Hrun)|[(e & _ & Hrun)|
        [(e & logs & _ & Hl & Hrun)|[(logs & _ & Hl & Hrun)|
        [(e & _ & _ & Hrun)|(_ & _ & Hrun)]]]]]]];
    fold run in Hrun; rewrite Hrun.
  1-4,7: simpl; eexists; (split; [done|apply Nat.le_0_l]).
  1-2: simpl; eexists; (split; [done|]);
       change (count_events is_default_route_add logs <=
                 if is_default_gateway then gateway_subnets subnets else 0)%nat;
       rewrite (Hlogs _ Hl); apply Nat.le_0_l.
  set (bound := [ConvertNetns netns; _; _; _]).
  destruct (configure_l3_default_routes (osvif_vif_to_dict_value vif) ifname
              (convert_netns_value netns) is_default_gateway
              (after w (bound ++ [OsvifVifToDict vif])))
    as (evs & Htr & Hcnt).
  exists ((bound ++ [OsvifVifToDict vif]) ++ evs). split.
  - rewrite Htr. simpl. by rewrite <- app_assoc.
  - rewrite count_events_app.
    rewrite (count_events_none _ (bound ++ _)) by (by repeat constructor).
    exact Hcnt.
Qed.

(** C6.  For a VIF whose physnet maps, through the resource class, to a
    driver name in [USERSPACE_DRIVERS], [_need_configure_l3] returns
    [False], saying so in the log, and [connect] does not call
    [_configure_l3] nor anything it does. *)
Theorem userspace_driver_no_l3 vif physnet resource driver_name :
  vif_physnet vif = Some physnet ->
  sriov_physnet_resource_mappings !! physnet = Some resource ->
  sriov_resource_driver_mappings !! resource = Some driver_name ->
  driver_name ∈ USERSPACE_DRIVERS ->
  (forall w, exists fmt,
     _need_configure_l3 vif w = (Ok false, after w [Log LInfo fmt [LVif vif]])) /\
  (forall instance_info ifname netns is_default_gateway container_id w,
     exists evs,
       trace (connect vif instance_info ifname netns is_default_gateway
                container_id w).2 = trace w ++ evs /\
       Forall (fun ev => is_l3_event ev = false) evs).
Proof.
  intros Hphys Hres Hdrv Hin.
  assert (forall w, exists fmt,
            _need_configure_l3 vif w =
            (Ok false, after w [Log LInfo fmt [LVif vif]])) as Hneed.
  { intros w. unfold _need_configure_l3.
    rewrite Hphys, Hres, Hdrv, bool_decide_eq_true_2 by done.
    eexists. unfold bind, emit, ret. done. }
  split; [exact Hneed|].
  intros. apply connect_without_l3.
  intros w'. destruct (Hneed w') as [fmt ->]. done.
Qed.

(** C7.  For a VIF whose physnet is not in the physnet table, or whose
    resource class is not in the driver table, [_need_configure_l3] logs
    the missing key and raises [KeyError] for it; [connect] then raises and
    does not call [_configure_l3] nor anything it does. *)
Theorem missing_mapping_no_l3 vif key :
  missing_mapping vif key ->
  (forall w, exists fmt,
     _need_configure_l3 vif w =
     (Raise (KeyError key), after w [Log LException fmt [LStr key]])) /\
  (forall instance_info ifname netns is_default_gateway container_id w,
     returned (connect vif instance_info ifname netns is_default_gateway
                 container_id w).1 = false /\
     exists evs,
       trace (connect vif instance_info ifname netns is_default_gateway
                container_id w).2 = trace w ++ evs /\
       Forall (fun ev => is_l3_event ev = false) evs).
Proof.
  intros (physnet & Hphys & Hmiss).
  assert (forall w, exists fmt,
            _need_configure_l3 vif w =
            (Raise (KeyError key), after w [Log LException fmt [LStr key]]))
    as Hneed.
  { intros w. unfold _need_configure_l3. rewrite Hphys.
    destruct Hmiss as [[Hres ->]|(resource & Hres & Hdrv & ->)].
    - rewrite Hres. eexists. unfold bind, emit, raise. done.
    - rewrite Hres, Hdrv. eexists. unfold bind, emit, raise. done. }
  split; [exact Hneed|].
  intros. split.
  - destruct (connect_cases vif instance_info ifname netns is_default_gateway
                container_id w)
      as [(e & _ & ->)|[(e & _ & _ & ->)|[(e & _ & ->)|[(e & _ & ->)|
          [(e & logs & _ & _ & ->)|[(logs & Hn & _)|
          [(e & Hn & _)|(Hn & _)]]]]]]]; try done.
    all: destruct (Hneed (after w
           [ConvertNetns netns;
            DriverManager _BINDING_NAMESPACE (vif_type_name vif);
            Plug vif instance_info;
            DriverConnect (vif_type_name vif) vif ifname
              (convert_netns_value netns) container_id])) as [fmt Hfmt];
      rewrite Hfmt in Hn; done.
  - apply connect_without_l3.
    intros w'. destruct (Hneed w') as [fmt ->]. done.
Qed.


(** C9.  A call of [disconnect] resolves the driver, calls
    [driver.disconnect], then calls [os_vif.unplug]; the step that raises
    ends the call.  It does nothing of what [_configure_l3] does (no
    address, no route, no IPv6 setting, no namespace switch) and leaves the
    process in the namespace it was in. *)
Theorem disconnect_sequence vif instance_info ifname netns container_id w :
  let run := disconnect vif instance_info ifname netns container_id w in
  let resolve := DriverManager _BINDING_NAMESPACE (vif_type_name vif) in
  let driver_disconnect :=
    DriverDisconnect (vif_type_name vif) vif ifname netns container_id in
  let unplug := Unplug vif instance_info in
  ((exists e, _get_binding_driver vif w = (Raise e, after w [resolve]) /\
              run = (Raise e, after w [resolve])) \/
   (exists e, env (trace w ++ [resolve]) driver_disconnect = Some e /\
              run = (Raise e, after w [resolve; driver_disconnect])) \/
   (exists e, env (trace w ++ [resolve; driver_disconnect]) unplug = Some e /\
              run = (Raise e, after w [resolve; driver_disconnect; unplug])) \/
   (env (trace w ++ [resolve; driver_disconnect]) unplug = None /\
    run = (Ok tt, after w [resolve; driver_disconnect; unplug]))) /\
  (exists evs, trace run.2 = trace w ++ evs /\
               Forall (fun ev => is_l3_event ev = false) evs) /\
  active_ns run.2 = active_ns w.
Proof.
  intros run resolve driver_disconnect unplug.
  assert ((exists e, _get_binding_driver vif w = (Raise e, after w [resolve]) /\
              run = (Raise e, after w [resolve])) \/
   (exists e, env (trace w ++ [resolve]) driver_disconnect = Some e /\
              run = (Raise e, after w [resolve; driver_disconnect])) \/
   (exists e, env (trace w ++ [resolve; driver_disconnect]) unplug = Some e /\
              run = (Raise e, after w [resolve; driver_disconnect; unplug])) \/
   (env (trace w ++ [resolve; driver_disconnect]) unplug = None /\
    run = (Ok tt, after w [resolve; driver_disconnect; unplug]))) as Hcases.
  { subst run. unfold disconnect, bind.
    rewrite !get_binding_driver_run. fold resolve.
    destruct (if bool_decide (vif_type_name vif ∈ plugins) then _ else _)
      as [driver|e] eqn:E1.
    2:{ left. by exists e. }
    assert (driver = vif_type_name vif) as ->.
    { revert E1. destruct (bool_decide _); [|done].
      destruct (env _ resolve); [done|]. intros H. by injection H. }
    right. cbn beta iota zeta. rewrite call_after. simpl.
    fold driver_disconnect.
    destruct (env _ driver_disconnect) as [e|] eqn:E2.
    { left. by exists e. }
    right. cbn beta iota zeta. rewrite call_after. simpl. fold unplug.
    destruct (env _ unplug) as [e|] eqn:E3.
    - left. by exists e.
    - right. done. }
  split; [exact Hcases|].
  destruct Hcases as [(e & _ & ->)|[(e & _ & ->)|[(e & _ & ->)|(_ & ->)]]];
    simpl; (split; [eexists; split; [done|by repeat constructor]|done]).
Qed.

(** C4, as amended.  Provided going back into the namespace of
    [self_ns_fd] does not itself raise, every call of [_configure_l3] leaves
    the process in the namespace it was in, whatever raises during the
    call: in particular when [_enable_ipv6] is entered and the write to
    [disable_ipv6], or anything else in its [try] block, raises. *)
Theorem namespace_restored vif_dict ifname netns is_default_gateway w :
  (forall tr ns, env tr (Setns (NsByFile ns)) = None) ->
  active_ns (_configure_l3 vif_dict ifname netns is_default_gateway w).2 =
  active_ns w.
Proof. intros Hrestore. by apply keeps_ns_configure_l3. Qed.

(** C5.  In every call of [_configure_l3]: when the addition of a default
    route fails with [NetlinkError] of code [EEXIST], the call logs the
    debug line and goes on; when it fails in any other way, and when the
    addition of an explicit route of a subnet fails in any way, the call
    ends with that exception, only releasing the IPDB handle.  A call in
    which nothing else fails than default routes that exist already
    returns normally. *)
Theorem route_failures vif_dict ifname netns is_default_gateway w :
  let run := _configure_l3 vif_dict ifname netns is_default_gateway w in
  exists evs,
    trace run.2 = trace w ++ evs /\
    (forall pre gateway rest,
       evs = pre ++ DefaultRouteAdd gateway :: rest ->
       env (trace w ++ pre) (DefaultRouteAdd gateway) =
         Some (NetlinkError EEXIST) ->
       exists rest', rest = default_route_exists_log vif_dict gateway :: rest') /\
    (forall pre gateway rest e,
       evs = pre ++ DefaultRouteAdd gateway :: rest ->
       env (trace w ++ pre) (DefaultRouteAdd gateway) = Some e ->
       e <> NetlinkError EEXIST ->
       run.1 = Raise e /\ rest = [ReleaseIPDB]) /\
    (forall pre gateway dst rest e,
       evs = pre ++ RouteAdd gateway dst :: rest ->
       env (trace w ++ pre) (RouteAdd gateway dst) = Some e ->
       run.1 = Raise e /\ rest = [ReleaseIPDB]) /\
    ((forall tr ev e,
        env tr ev = Some e ->
        is_default_route_add ev = true /\ e = NetlinkError EEXIST) ->
     run.1 = Ok tt).
Proof.
  intros run.
  destruct (handles_configure_l3 vif_dict ifname netns is_default_gateway w)
    as (evs & Htr & H).
  fold run in Htr, H.
  assert (forall e, raised run.1 = Some e -> run.1 = Raise e) as Hraised.
  { intros e. destruct run.1 as [[]|e']; simpl; congruence. }
  exists evs. split; [exact Htr|]. split; [|split; [|split]].
  - intros pre gateway rest Heq He.
    destruct (H _ _ _ _ Heq He) as [H1 _]. by apply H1.
  - intros pre gateway rest e Heq He Hne.
    destruct (H _ _ _ _ Heq He) as [_ H2].
    destruct (H2 Hne) as [Hr ->]. split; [by apply Hraised|done].
  - intros pre gateway dst rest e Heq He.
    destruct (H _ _ _ _ Heq He) as [Hr ->]. split; [by apply Hraised|done].
  - intros Hbenign.
    pose proof (succeeds_configure_l3 Hbenign vif_dict ifname netns
                  is_default_gateway w) as Hok.
    fold run in Hok. by destruct run.1 as [[]|e].
Qed.

(** ** Working through a plan *)

Lemma follows_plan_bind {A B} plan1 plan2 (m : M A) (k : A -> M B) :
  follows_plan plan1 m -> (forall a, follows_plan plan2 (k a)) ->
  follows_plan (plan1 ++ plan2) (bind m k).
Proof.
  intros Hm Hk.
  eapply (emits_bind _ _ _
            (fun _ r evs =>
               List.filter is_work evs `prefix_of` plan2 /\
               (returned r = true -> List.filter is_work evs = plan2))).
  - exact Hm.
  - exact Hk.
  - simpl. intros e evs [Hpre _]. split; [|done].
    by apply prefix_app_r.
  - simpl. intros a evs1 r evs2 [_ H1] [Hpre H2].
    rewrite List.filter_app, (H1 eq_refl). split.
    + by apply prefix_app.
    + intros Hr. by rewrite (H2 Hr).
Qed.

Lemma follows_plan_idle (P : Event -> Prop) {A} (m : M A) :
  only P m -> (forall ev, P ev -> is_work ev = false) -> follows_plan [] m.
Proof.
  intros Hm HP. eapply emits_mono; [exact Hm|]. simpl. intros r evs Hall.
  assert (List.filter is_work evs = []) as ->; [|done].
  induction Hall as [|ev evs Hev _ IH]; simpl; [done|].
  by rewrite (HP _ Hev).
Qed.

Lemma follows_plan_call ev : is_work ev = true -> follows_plan [ev] (call ev).
Proof.
  intros Hev. apply emits_call. intros r. simpl. by rewrite Hev.
Qed.

Lemma follows_plan_for_each {A} (l : list A) (body : A -> M unit)
    (plan : A -> list Event) :
  (forall x, follows_plan (plan x) (body x)) ->
  follows_plan (List.flat_map plan l) (for_each l body).
Proof.
  intros Hbody. induction l as [|x l IH]; simpl.
  - by apply emits_ret.
  - apply follows_plan_bind; [apply Hbody|]. intros u. exact IH.
Qed.

Lemma follows_plan_calls {A} (l : list A) (f : A -> Event) :
  (forall x, is_work (f x) = true) ->
  follows_plan (List.map f l) (for_each l (fun x => call (f x))).
Proof.
  intros Hf.
  replace (List.map f l) with (List.flat_map (fun x => [f x]) l)
    by (induction l as [|x l IH]; simpl; [done|by rewrite IH]).
  apply follows_plan_for_each. intros x. by apply follows_plan_call.
Qed.

Lemma follows_plan_enable_ipv6 netns : follows_plan [] (_enable_ipv6 netns).
Proof.
  apply (follows_plan_idle (fun ev => is_ipv6_event ev = true)).
  - eapply emits_mono; [apply enable_ipv6_emits|]. simpl.
    intros r evs (rest & -> & Hrest). constructor; [done|].
    eapply Forall_impl; [exact Hrest|]. by intros ev [? _].
  - intros ev Hev. by destruct ev.
Qed.

Lemma follows_plan_add_default_route vif_dict subnet
    (is_default_gateway : bool) :
  follows_plan
    (if is_default_gateway then
       match subnet_gateway subnet with
       | Some gateway => [DefaultRouteAdd gateway]
       | None => []
       end
     else [])
    (add_default_route vif_dict subnet is_default_gateway).
Proof.
  unfold add_default_route.
  destruct is_default_gateway; [|by apply emits_ret].
  destruct (subnet_gateway subnet) as [gateway|]; [|by apply emits_ret].
  eapply (emits_try_except _ _ (fun _ evs => evs = [DefaultRouteAdd gateway])
            (fun _ _ evs => List.filter is_work evs = [])).
  - by apply emits_call.
  - intros ex. destruct ex as [|code| | |]; try by apply emits_raise.
    destruct (negb _); [by apply emits_raise|by apply emits_emit].
  - simpl. by intros _ evs ->.
  - simpl. intros e evs1 r evs2 -> H. simpl. by rewrite H.
Qed.

Lemma follows_plan_configure_routes vif_dict subnets is_default_gateway :
  follows_plan (all_route_adds is_default_gateway subnets)
    (configure_routes vif_dict subnets is_default_gateway).
Proof.
  apply follows_plan_for_each. intros s. apply follows_plan_bind.
  - by apply follows_plan_calls.
  - intros u. apply follows_plan_add_default_route.
Qed.

Lemma follows_plan_with_iface subnets ifname netns :
  follows_plan (all_add_ips ifname subnets ++ [IfaceCommit ifname])
    (with_iface subnets ifname netns).
Proof.
  unfold with_iface.
  apply (follows_plan_bind [] _).
  { apply (follows_plan_idle (fun ev => is_setup_event ev = true));
      [by apply only_call|by intros []]. }
  intros u. apply follows_plan_bind; [|intros u'; by apply follows_plan_call].
  apply follows_plan_for_each. intros s.
  apply (follows_plan_bind [] _).
  - destruct (Z.eqb _ 6); [apply follows_plan_enable_ipv6|by apply emits_ret].
  - intros u'. by apply follows_plan_calls.
Qed.

Lemma follows_plan_configure_l3 vif_dict ifname netns is_default_gateway :
  follows_plan
    (l3_plan ifname (network_subnets (vd_network vif_dict)) is_default_gateway)
    (_configure_l3 vif_dict ifname netns is_default_gateway).
Proof.
  unfold _configure_l3, l3_plan.
  apply (follows_plan_bind [] _).
  { apply (follows_plan_idle (fun ev => is_setup_event ev = true));
      [by apply only_call|by intros []]. }
  intros u. apply (follows_plan_bind [] _).
  { apply (follows_plan_idle (fun ev => is_setup_event ev = true));
      [by apply only_get_ipdb|by intros []]. }
  intros u'.
  set (subnets := network_subnets (vd_network vif_dict)).
  assert (follows_plan
            (all_add_ips ifname subnets ++ [IfaceCommit ifname] ++
             all_route_adds is_default_gateway subnets)
            (with_iface subnets ifname netns >>
             configure_routes vif_dict subnets is_default_gateway)) as Hbody.
  { rewrite app_assoc. apply follows_plan_bind.
    - apply follows_plan_with_iface.
    - intros u''. apply follows_plan_configure_routes. }
  eapply (emits_try_finally _ _ _
            (fun r evs => evs = [ReleaseIPDB] /\ returned r = true)).
  - exact Hbody.
  - by apply emits_emit.
  - simpl. intros r evs1 evs2 [H1 H2] [-> _].
    rewrite List.filter_app. simpl. rewrite app_nil_r. by split.
  - simpl. by intros r evs1 e evs2 _ [_ ?].
Qed.

(** ** Stopping at a failure *)

Lemma stops_at_only F tail (P : Event -> Prop) {A} (m : M A) :
  only P m -> (forall ev, P ev -> F ev = false) -> stops_at F tail m.
Proof.
  intros Hm HP w. destruct (Hm w) as (evs & Htr & Hall).
  exists evs. split; [done|]. intros pre ev rest e -> HF _.
  apply Forall_app in Hall as [_ Hall]. apply Forall_cons in Hall as [Hev _].
  apply HP in Hev. congruence.
Qed.

Lemma stops_at_call F ev : stops_at F [] (call ev).
Proof.
  intros w. exists [ev]. unfold call.
  split; [by destruct (env _ _)|].
  intros pre ev' rest e Heq _ Henv.
  destruct pre as [|ev'' pre]; simpl in Heq.
  - injection Heq as <- <-. rewrite app_nil_r in Henv. by rewrite Henv.
  - injection Heq as _ Heq. by destruct pre.
Qed.

Lemma stops_at_bind F {A B} (m : M A) (k : A -> M B) :
  stops_at F [] m -> (forall a, stops_at F [] (k a)) ->
  stops_at F [] (bind m k).
Proof.
  intros Hm Hk w. unfold bind.
  destruct (Hm w) as (evs1 & Htr1 & H1).
  destruct (m w) as [[a|e'] w1]; simpl in *.
  2:{ exists evs1. split; [done|]. intros pre ev rest e Heq HF He.
      destruct (H1 _ _ _ _ Heq HF He) as [[= ->] ->]. done. }
  destruct (Hk a w1) as (evs2 & Htr2 & H2).
  exists (evs1 ++ evs2). split; [by rewrite Htr2, Htr1, app_assoc|].
  intros pre ev rest e Heq HF He.
  apply app_eq_app_cons in Heq as [(r1 & -> & ->)|(p2 & -> & ->)].
  - by destruct (H1 _ _ _ _ eq_refl HF He).
  - eapply H2; [done|done|]. by rewrite Htr1, <- app_assoc.
Qed.

Lemma stops_at_for_each F {A} (l : list A) (body : A -> M unit) :
  (forall x, stops_at F [] (body x)) -> stops_at F [] (for_each l body).
Proof.
  intros Hbody. induction l as [|x l IH]; simpl.
  - by apply (stops_at_only _ _ (fun _ => False)); [apply only_ret|].
  - apply stops_at_bind; [apply Hbody|]. intros u. exact IH.
Qed.

Lemma stops_at_bind_only F tail (P : Event -> Prop) {A B}
    (m : M A) (k : A -> M B) :
  only P m -> (forall ev, P ev -> F ev = false) ->
  (forall a, stops_at F tail (k a)) ->
  stops_at F tail (bind m k).
Proof.
  intros Hm HP Hk w. unfold bind.
  destruct (Hm w) as (evs1 & Htr1 & H1).
  assert (forall pre ev r1, evs1 = pre ++ ev :: r1 -> F ev = false) as Hnot.
  { intros pre ev r1 ->. apply Forall_app in H1 as [_ H1].
    apply Forall_cons in H1 as [Hev _]. by apply HP. }
  destruct (m w) as [[a|e'] w1]; simpl in *.
  - destruct (Hk a w1) as (evs2 & Htr2 & H2).
    exists (evs1 ++ evs2). split; [by rewrite Htr2, Htr1, app_assoc|].
    intros pre ev rest e Heq HF He.
    apply app_eq_app_cons in Heq as [(r1 & Heq & ->)|(p2 & -> & ->)].
    + apply Hnot in Heq. congruence.
    + eapply H2; [done|done|]. by rewrite Htr1, <- app_assoc.
  - exists evs1. split; [done|]. intros pre ev rest e Heq HF He.
    apply Hnot in Heq. congruence.
Qed.

Lemma stops_at_release F {A} (body : M A) :
  F ReleaseIPDB = false ->
  stops_at F [] body ->
  stops_at F [ReleaseIPDB] (try_finally body (emit ReleaseIPDB)).
Proof.
  intros HF Hb w. unfold try_finally, emit.
  destruct (Hb w) as (evs1 & Htr1 & H1).
  destruct (body w) as [r w1]; simpl in *.
  exists (evs1 ++ [ReleaseIPDB]). split; [by rewrite Htr1, <- app_assoc|].
  intros pre ev rest e Heq Hev He.
  apply app_eq_app_cons in Heq as [(r1 & -> & ->)|(p2 & -> & Heq)].
  - by destruct (H1 _ _ _ _ eq_refl Hev He) as [-> ->].
  - destruct p2 as [|ev' p2]; simpl in Heq.
    + injection Heq as <- _. congruence.
    + injection Heq as _ Heq. by destruct p2.
Qed.

(** What the body of the [with] block of the IPDB handle emits. *)
Lemma only_enable_ipv6 (P : Event -> Prop) netns :
  (forall ev, is_ipv6_event ev = true -> P ev) -> only P (_enable_ipv6 netns).
Proof.
  intros HP. eapply emits_mono; [apply enable_ipv6_emits|]. simpl.
  intros r evs (rest & -> & Hrest). constructor; [by apply HP|].
  eapply Forall_impl; [exact Hrest|]. intros ev [? _]. by apply HP.
Qed.

Lemma only_configure_addresses (P : Event -> Prop) subnets ifname netns :
  (forall ev, is_ipv6_event ev = true -> P ev) ->
  (forall ifn ip, P (AddIp ifn ip)) ->
  only P (configure_addresses subnets ifname netns).
Proof.
  intros H6 Hadd. apply only_for_each. intros s. apply only_bind.
  - destruct (Z.eqb _ 6); [by apply only_enable_ipv6|apply only_ret].
  - intros u. apply only_for_each. intros fip. by apply only_call.
Qed.

Lemma only_configure_routes (P : Event -> Prop) vif_dict subnets
    is_default_gateway :
  (forall ev, is_route_add ev = true -> P ev) ->
  (forall ev, is_log ev = true -> P ev) ->
  only P (configure_routes vif_dict subnets is_default_gateway).
Proof.
  intros Hr Hl. apply only_for_each. intros s. apply only_bind.
  - apply only_for_each. intros route. by apply only_call, Hr.
  - intros u. unfold add_default_route.
    destruct is_default_gateway; [|apply only_ret].
    destruct (subnet_gateway s) as [gateway|]; [|apply only_ret].
    apply only_try_except; [by apply only_call, Hr|].
    intros [|code| | |]; try apply only_raise.
    destruct (negb _); [apply only_raise|by apply only_emit, Hl].
Qed.

Lemma only_l3_body vif_dict ifname netns is_default_gateway :
  let subnets := network_subnets (vd_network vif_dict) in
  only (fun ev => is_open_event ev = false /\ is_release ev = false)
    (with_iface subnets ifname netns >>
     configure_routes vif_dict subnets is_default_gateway).
Proof.
  intros subnets. apply only_bind.
  - unfold with_iface. apply only_bind; [by apply only_call|]. intros u.
    apply only_bind; [|intros u'; by apply only_call].
    apply only_configure_addresses; [|done]. intros ev Hev. by destruct ev.
  - intros u. apply only_configure_routes; intros ev Hev; by destruct ev.
Qed.

Lemma only_get_ipdb_open (P : Event -> Prop) netns :
  (forall ev, is_open_event ev = true -> P ev) -> only P (get_ipdb netns).
Proof.
  intros HP. unfold get_ipdb. destruct netns as [p|]; [|by apply only_call, HP].
  destruct (negb (String.eqb p "")); [|by apply only_call, HP].
  apply only_bind; [by apply only_call, HP|]. intros u. by apply only_call, HP.
Qed.

Lemma stops_at_get_ipdb F netns : stops_at F [] (get_ipdb netns).
Proof.
  unfold get_ipdb. destruct netns as [p|]; [|apply stops_at_call].
  destruct (negb _); [|apply stops_at_call].
  apply stops_at_bind; [apply stops_at_call|]. intros u. apply stops_at_call.
Qed.

Lemma stops_at_iface_configure_l3 vif_dict ifname netns is_default_gateway :
  stops_at is_iface_event [ReleaseIPDB]
    (_configure_l3 vif_dict ifname netns is_default_gateway).
Proof.
  unfold _configure_l3.
  apply (stops_at_bind_only _ _ (fun ev => is_open_event ev = true));
    [by apply only_call|by intros []|]. intros u.
  apply (stops_at_bind_only _ _ (fun ev => is_open_event ev = true)).
  { by apply only_get_ipdb_open. }
  { by intros []. }
  intros u'. apply stops_at_release; [done|].
  apply stops_at_bind.
  - unfold with_iface. apply stops_at_bind; [apply stops_at_call|]. intros u''.
    apply stops_at_bind; [|intros u3; apply stops_at_call].
    apply stops_at_for_each. intros s. apply stops_at_bind.
    + apply (stops_at_only _ _ (fun ev => is_ipv6_event ev = true)).
      * destruct (Z.eqb _ 6); [by apply only_enable_ipv6|apply only_ret].
      * by intros [].
    + intros u3. apply stops_at_for_each. intros fip. apply stops_at_call.
  - intros u''.
    apply (stops_at_only _ _ (fun ev => is_route_add ev = true \/ is_log ev = true)).
    + apply only_configure_routes; auto.
    + intros ev [Hev|Hev]; by destruct ev.
Qed.

(** ** Runs of calls *)

Lemma for_each_call_run (l : list Event) w :
  (exists pre ev e,
     first_failure (trace w) l pre ev e /\
     for_each l call w = (Raise e, after w (pre ++ [ev]))) \/
  (all_succeed (trace w) l /\ for_each l call w = (Ok tt, after w l)).
Proof.
  revert w. induction l as [|ev l IH]; intros w.
  - right. split; [by intros [|??] ?? ?|]. simpl. unfold ret.
    by rewrite after_nil.
  - assert (for_each (ev :: l) call w =
            match env (trace w) ev with
            | Some e => (Raise e, record ev w)
            | None => for_each l call (record ev w)
            end) as ->.
    { simpl. unfold bind. unfold call at 1. by destruct (env _ _). }
    destruct (env (trace w) ev) as [e|] eqn:Hev.
    + left. exists [], ev, e. split.
      * split; [by exists l|]. split; [by intros [|??] ?? ?|].
        by rewrite app_nil_r.
      * by rewrite <- (after_nil w) at 1; rewrite record_after.
    + destruct (IH (record ev w)) as [(pre & ev' & e & (Hl & Hpre & He) & Hrun)|
                                       [Hall Hrun]].
      * left. exists (ev :: pre), ev', e. split.
        -- destruct Hl as [rest ->]. split; [by exists rest|]. split.
           ++ intros [|ev1' p1] ev1 r1 Heq; simpl in Heq.
              ** injection Heq as <- _. by rewrite app_nil_r.
              ** injection Heq as <- Heq. specialize (Hpre _ _ _ Heq).
                 simpl in Hpre. by rewrite <- app_assoc in Hpre.
           ++ simpl in He. by rewrite <- app_assoc in He.
        -- rewrite Hrun. unfold after, record. simpl.
           by rewrite <- app_assoc.
      * right. split.
        -- intros [|ev1' p1] ev1 r1 Heq; simpl in Heq.
           ++ injection Heq as <- _. by rewrite app_nil_r.
           ++ injection Heq as <- ->. specialize (Hall p1 ev1 r1 eq_refl).
              simpl in Hall. by rewrite <- app_assoc in Hall.
        -- rewrite Hrun. unfold after, record. simpl.
           by rewrite <- app_assoc.
Qed.

Lemma bind_ext {A B} (m : M A) (k k' : A -> M B) w :
  (forall a w', k a w' = k' a w') -> bind m k w = bind m k' w.
Proof.
  intros Hk. unfold bind. destruct (m w) as [[a|e] w1]; [apply Hk|done].
Qed.

Lemma get_ipdb_calls netns w :
  get_ipdb netns w = for_each (ipdb_opens netns) call w.
Proof.
  unfold get_ipdb, ipdb_opens.
  assert (forall ev w', call ev w' = (call ev >> ret tt) w') as Hcall.
  { intros ev w'. unfold bind, call, ret. by destruct (env _ _). }
  destruct netns as [p|]; [|apply Hcall].
  destruct (negb _); [|apply Hcall]. simpl.
  apply bind_ext. intros u w'. apply Hcall.
Qed.


Lemma bind_ok {A B} (m : M A) (k : A -> M B) w a w1 :
  m w = (Ok a, w1) -> bind m k w = k a w1.
Proof. intros H. unfold bind. by rewrite H. Qed.

Lemma bind_raise {A B} (m : M A) (k : A -> M B) w e w1 :
  m w = (Raise e, w1) -> bind m k w = (Raise e, w1).
Proof. intros H. unfold bind. by rewrite H. Qed.

Lemma bind_assoc {A B C} (m : M A) (k : A -> M B) (k' : B -> M C) w :
  bind (bind m k) k' w = bind m (fun a => bind (k a) k') w.
Proof. unfold bind. by destruct (m w) as [[a|e] w1]. Qed.

Lemma configure_l3_after_opens vif_dict ifname netns is_default_gateway w :
  let subnets := network_subnets (vd_network vif_dict) in
  _configure_l3 vif_dict ifname netns is_default_gateway w =
  bind (for_each (l3_opens vif_dict ifname netns is_default_gateway) call)
    (fun _ =>
       try_finally
         (with_iface subnets ifname netns >>
          configure_routes vif_dict subnets is_default_gateway)
         (emit ReleaseIPDB)) w.
Proof.
  intros subnets. unfold _configure_l3, l3_opens. simpl.
  rewrite bind_assoc. apply bind_ext. intros u w'.
  unfold bind. by rewrite get_ipdb_calls.
Qed.

(** ** [_enable_ipv6], step by step *)

Lemma enable_ipv6_unbound_convert netns w e :
  env (trace w ++ [CallEnableIPv6 netns])
    (ConvertNetns (Some "/proc/self/ns/net")) = Some e ->
  _enable_ipv6 netns w =
  (Raise (UnboundLocalError "self_ns_fd"),
   after w [CallEnableIPv6 netns; ConvertNetns (Some "/proc/self/ns/net")]).
Proof.
  intros Hconv.
  unfold _enable_ipv6, enable_ipv6_try, convert_netns.
  rewrite (bind_ok _ _ w tt (after w [CallEnableIPv6 netns]))
    by (by rewrite <- (after_nil w) at 1; rewrite emit_after).
  rewrite (bind_raise _ _ _ e
             (after w [CallEnableIPv6 netns;
                       ConvertNetns (Some "/proc/self/ns/net")])).
  - done.
  - rewrite call_after. simpl. by rewrite Hconv.
Qed.

Lemma enable_ipv6_unbound_open netns w e :
  env (trace w ++ [CallEnableIPv6 netns])
    (ConvertNetns (Some "/proc/self/ns/net")) = None ->
  env (trace w ++ [CallEnableIPv6 netns;
                   ConvertNetns (Some "/proc/self/ns/net")])
    (OpenFile (convert_netns_value (Some "/proc/self/ns/net")) "r") = Some e ->
  _enable_ipv6 netns w =
  (Raise (UnboundLocalError "self_ns_fd"), after w (enable_ipv6_prelude netns)).
Proof.
  intros Hconv Hopen.
  unfold _enable_ipv6, enable_ipv6_try, convert_netns.
  rewrite (bind_ok _ _ w tt (after w [CallEnableIPv6 netns]))
    by (by rewrite <- (after_nil w) at 1; rewrite emit_after).
  rewrite (bind_ok _ _ _ tt
             (after w [CallEnableIPv6 netns;
                       ConvertNetns (Some "/proc/self/ns/net")]))
    by (rewrite call_after; simpl; by rewrite Hconv).
  unfold ret, open_ns_file. simpl. rewrite Hopen. simpl.
  unfold after, record, enable_ipv6_prelude. simpl.
  by rewrite <- app_assoc.
Qed.

Lemma enable_ipv6_bound netns w :
  env (trace w ++ [CallEnableIPv6 netns])
    (ConvertNetns (Some "/proc/self/ns/net")) = None ->
  env (trace w ++ [CallEnableIPv6 netns;
                   ConvertNetns (Some "/proc/self/ns/net")])
    (OpenFile (convert_netns_value (Some "/proc/self/ns/net")) "r") = None ->
  _enable_ipv6 netns w =
  try_finally (enable_ipv6_inside netns) (setns (NsByFile (active_ns w)))
    (after w (enable_ipv6_prelude netns)).
Proof.
  intros Hconv Hopen.
  unfold _enable_ipv6, enable_ipv6_try, convert_netns.
  rewrite (bind_ok _ _ w tt (after w [CallEnableIPv6 netns]))
    by (by rewrite <- (after_nil w) at 1; rewrite emit_after).
  rewrite (bind_ok _ _ _ tt
             (after w [CallEnableIPv6 netns;
                       ConvertNetns (Some "/proc/self/ns/net")]))
    by (rewrite call_after; simpl; by rewrite Hconv).
  unfold ret, open_ns_file. simpl. rewrite Hopen. simpl.
  replace (record _ (after w _)) with (after w (enable_ipv6_prelude netns))
    by (unfold after, record, enable_ipv6_prelude; simpl;
        by rewrite <- app_assoc).
  unfold try_finally, enable_ipv6_inside, convert_netns.
  by destruct (bind _ _ (after w (enable_ipv6_prelude netns))) as [r w3].
Qed.

Lemma keeps_ns_write_file path data : keeps_ns (write_file path data).
Proof.
  apply keeps_ns_bind; [apply keeps_ns_call|]. intros u.
  apply keeps_ns_try_finally; apply keeps_ns_call.
Qed.

(** The namespace the process is in when the [try] block has been gone
    through from the point where [self_ns_fd] is bound. *)
Lemma enable_ipv6_inside_ns netns w :
  active_ns (enable_ipv6_inside netns w).2 =
  match env (trace w) (Setns (NsByName netns)) with
  | None => setns_target (NsByName netns) (active_ns w)
  | Some _ => active_ns w
  end.
Proof.
  unfold enable_ipv6_inside, bind at 1, setns.
  destruct (env (trace w) (Setns (NsByName netns))) as [e|]; [done|].
  set (w1 := enter _ _).
  pose proof (keeps_ns_bind _ _
                (keeps_ns_convert_netns
                   (Some "/proc/sys/net/ipv6/conf/all/disable_ipv6"))
                (fun path => keeps_ns_write_file path "0") w1) as H.
  by rewrite H.
Qed.

Lemma enable_ipv6_inside_emits netns w :
  exists evs,
    trace (enable_ipv6_inside netns w).2 = trace w ++ evs /\
    Forall (fun ev => is_ipv6_event ev = true /\ is_restore ev = false) evs /\
    forall pre path data rest,
      evs = pre ++ WriteFile path data :: rest ->
      data = "0" /\
      env (trace w) (Setns (NsByName netns)) = None /\
      exists p2, pre = Setns (NsByName netns) :: p2.
Proof.
  assert (only (fun ev => (is_ipv6_event ev = true /\ is_restore ev = false) /\
                          forall path data, ev = WriteFile path data -> data = "0")
            (let* path :=
               convert_netns (Some "/proc/sys/net/ipv6/conf/all/disable_ipv6") in
             write_file path "0")) as Hrest.
  { apply only_bind; [by apply only_convert_netns|]. intros path.
    apply only_write_file; (split; [done|]); intros p d [=]; done. }
  unfold enable_ipv6_inside, bind at 1, setns.
  destruct (env (trace w) (Setns (NsByName netns))) as [e|] eqn:Henter.
  - exists [Setns (NsByName netns)]. split; [done|]. split; [by repeat constructor|].
    intros [|ev pre] path data rest Heq; simpl in Heq; [done|].
    injection Heq as _ Heq. by destruct pre.
  - set (w1 := enter _ _). destruct (Hrest w1) as (evs & Htr & Hall).
    exists (Setns (NsByName netns) :: evs). split.
    { rewrite Htr. subst w1. simpl. by rewrite <- app_assoc. }
    split.
    { constructor; [done|]. eapply Forall_impl; [exact Hall|]. by intros ev [? _]. }
    intros [|ev pre] path data rest Heq; simpl in Heq; [done|].
    injection Heq as <- ->. split; [|split; [done|by exists pre]].
    apply Forall_app in Hall as [_ Hall]. apply Forall_cons in Hall as [[_ H] _].
    by eapply H.
Qed.

Lemma logs_no_work (logs : list Event) :
  Forall (fun ev => is_log ev = true) logs -> List.filter is_work logs = [].
Proof.
  induction 1 as [|ev logs Hev _ IH]; simpl; [done|]. by destruct ev.
Qed.

(** ** Further properties *)

(** X1.  [_need_configure_l3] returns [False] exactly when the physnet of
    the VIF maps, through the resource class, to a driver name in
    [USERSPACE_DRIVERS]; it returns [True] exactly when the VIF has no
    physnet or its physnet maps to a driver name that is not in
    [USERSPACE_DRIVERS], and then it logs nothing. *)
Theorem need_configure_l3_answer vif w :
  ((_need_configure_l3 vif w).1 = Ok false <->
   exists driver_name,
     maps_to_driver vif driver_name /\ driver_name ∈ USERSPACE_DRIVERS) /\
  ((_need_configure_l3 vif w).1 = Ok true <->
   vif_physnet vif = None \/
   exists driver_name,
     maps_to_driver vif driver_name /\ driver_name ∉ USERSPACE_DRIVERS) /\
  ((_need_configure_l3 vif w).1 = Ok true -> (_need_configure_l3 vif w).2 = w).
Proof.
  unfold _need_configure_l3, maps_to_driver.
  destruct (vif_physnet vif) as [physnet|] eqn:Hphys; simpl.
  2:{ split; [|split]; [|by split; [left|]|done].
      split; [done|]. intros (d & (p & r & H & _) & _). done. }
  destruct (sriov_physnet_resource_mappings !! physnet) as [resource|] eqn:Hres;
    simpl.
  2:{ split; [|split]; [| |done].
      - split; [done|]. intros (d & (p & r & [= <-] & H & _) & _). congruence.
      - split; [done|]. intros [H|(d & (p & r & [= <-] & H & _) & _)];
          congruence. }
  destruct (sriov_resource_driver_mappings !! resource) as [driver_name|]
    eqn:Hdrv; simpl.
  2:{ split; [|split]; [| |done].
      - split; [done|].
        intros (d & (p & r & [= <-] & H1 & H2) & _). congruence.
      - split; [done|].
        intros [H|(d & (p & r & [= <-] & H1 & H2) & _)]; congruence. }
  destruct (bool_decide (driver_name ∈ USERSPACE_DRIVERS)) eqn:Hin; simpl.
  - apply bool_decide_eq_true_1 in Hin. split; [|split]; [| |done].
    + split; [|done]. intros _. exists driver_name. split; [|done].
      by exists physnet, resource.
    + split; [done|].
      intros [H|(d & (p & r & [= <-] & H1 & H2) & Hd)]; [done|].
      rewrite Hres in H1. injection H1 as <-. rewrite Hdrv in H2.
      injection H2 as <-. done.
  - apply bool_decide_eq_false_1 in Hin. split; [|split]; [| |done].
    + split; [done|].
      intros (d & (p & r & [= <-] & H1 & H2) & Hd).
      rewrite Hres in H1. injection H1 as <-. rewrite Hdrv in H2.
      injection H2 as <-. done.
    + split; [|done]. intros _. right. exists driver_name. split; [|done].
      by exists physnet, resource.
Qed.

(** X2.  In every call of [_configure_l3], the additions of addresses, the
    commit and the additions of routes are, in order, the first ones of:
    every address of every subnet (with the prefix length of the subnet),
    the commit, then for every subnet its explicit routes followed by its
    default route (when [is_default_gateway] holds and the subnet has a
    gateway).  When the call returns, all of them have been made. *)
Theorem configure_l3_follows_plan vif_dict ifname netns is_default_gateway w :
  let subnets := network_subnets (vd_network vif_dict) in
  let run := _configure_l3 vif_dict ifname netns is_default_gateway w in
  exists evs,
    trace run.2 = trace w ++ evs /\
    List.filter is_work evs `prefix_of`
      l3_plan ifname subnets is_default_gateway /\
    (returned run.1 = true ->
     List.filter is_work evs = l3_plan ifname subnets is_default_gateway).
Proof.
  intros subnets run.
  apply (follows_plan_configure_l3 vif_dict ifname netns is_default_gateway w).
Qed.

(** X3.  For a VIF with no subnet, [_configure_l3] adds no address and no
    route and does not touch the IPv6 setting nor the namespace of the
    process; of the operations on the interface and the route table it only
    makes the commit. *)
Theorem configure_l3_no_subnets vif_dict ifname netns is_default_gateway w :
  network_subnets (vd_network vif_dict) = [] ->
  exists evs,
    trace (_configure_l3 vif_dict ifname netns is_default_gateway w).2 =
      trace w ++ evs /\
    List.filter is_work evs `prefix_of` [IfaceCommit ifname] /\
    Forall (fun ev => is_ipv6_event ev = false) evs.
Proof.
  intros Hnil.
  destruct (emits_and _ _ _
              (follows_plan_configure_l3 vif_dict ifname netns
                 is_default_gateway)
              (configure_l3_emits vif_dict ifname netns is_default_gateway) w)
    as (evs & Htr & [Hplan _] & Hshape).
  exists evs. split; [exact Htr|].
  rewrite Hnil in Hplan, Hshape. split; [exact Hplan|].
  destruct Hshape as (setup & addr & tail & ok & -> & Hs & Ha & Ht & _).
  assert (addr = []) as ->.
  { destruct Ha as [[-> _]|Ha]; [done|]. by inversion Ha. }
  apply Forall_app. split.
  - eapply Forall_impl; [exact Hs|]. intros ev Hev. by destruct ev.
  - simpl. eapply Forall_impl; [exact Ht|]. intros ev Hev. by destruct ev.
Qed.

(** X4.  [get_ipdb] with [None] or the empty string makes one call, [IPDB()]
    for the namespace the process is in, and never [NetNS]; with another
    name it calls [NetNS(name)] and, only when that succeeds, [IPDB(nl=...)].
    A failure of a call is the outcome of [get_ipdb]. *)
Theorem get_ipdb_opens netns w :
  (netns = None \/ netns = Some "" -> ipdb_opens netns = [IPDB false]) /\
  (forall p, netns = Some p -> p <> "" ->
             ipdb_opens netns = [NetNS p; IPDB true]) /\
  ((exists pre ev e,
      first_failure (trace w) (ipdb_opens netns) pre ev e /\
      get_ipdb netns w = (Raise e, after w (pre ++ [ev]))) \/
   (all_succeed (trace w) (ipdb_opens netns) /\
    get_ipdb netns w = (Ok tt, after w (ipdb_opens netns)))).
Proof.
  split; [|split].
  - by intros [->| ->].
  - intros p -> Hp. unfold ipdb_opens.
    destruct (String.eqb p "") eqn:E; [|done]. by apply String.eqb_eq in E.
  - rewrite get_ipdb_calls. apply for_each_call_run.
Qed.

(** X5.  A call of [_configure_l3] first enters the privileged entry point
    and opens its IPDB handle.  Either one of these calls raises: then the
    call ends with that exception, nothing else is done and nothing is
    released.  Or they all succeed: then the handle is released exactly
    once, as the last thing the call does, whatever happens in between. *)
Theorem configure_l3_handle vif_dict ifname netns is_default_gateway w :
  let run := _configure_l3 vif_dict ifname netns is_default_gateway w in
  let opens := l3_opens vif_dict ifname netns is_default_gateway in
  (exists pre ev e,
     first_failure (trace w) opens pre ev e /\
     run = (Raise e, after w (pre ++ [ev]))) \/
  (all_succeed (trace w) opens /\
   exists inner,
     trace run.2 = trace w ++ opens ++ inner ++ [ReleaseIPDB] /\
     Forall (fun ev => is_open_event ev = false /\ is_release ev = false) inner).
Proof.
  intros run opens. subst run. rewrite configure_l3_after_opens.
  fold opens.
  destruct (for_each_call_run opens w) as [(pre & ev & e & Hfail & Hrun)|
                                            [Hall Hrun]];
    [rewrite (bind_raise _ _ _ _ _ Hrun)|rewrite (bind_ok _ _ _ _ _ Hrun)].
  - left. by exists pre, ev, e.
  - right. split; [done|].
    assert (emits
              (try_finally
                 (with_iface (network_subnets (vd_network vif_dict)) ifname netns >>
                  configure_routes vif_dict
                    (network_subnets (vd_network vif_dict)) is_default_gateway)
                 (emit ReleaseIPDB))
              (fun _ evs =>
                 exists inner,
                   evs = inner ++ [ReleaseIPDB] /\
                   Forall (fun ev => is_open_event ev = false /\
                                     is_release ev = false) inner)) as Hbody.
    { eapply (emits_try_finally _ _ _
                (fun r evs => evs = [ReleaseIPDB] /\ returned r = true)).
      - apply only_l3_body.
      - by apply emits_emit.
      - simpl. intros r evs1 evs2 H [-> _]. by exists evs1.
      - simpl. by intros r evs1 e evs2 _ [_ ?]. }
    destruct (Hbody (after w opens)) as (evs & Htr & inner & -> & Hinner).
    exists inner. split; [|done]. rewrite Htr. simpl. by rewrite <- app_assoc.
Qed.

(** X6.  In every call of [_configure_l3], when looking the interface up,
    adding an address or committing the addresses fails, the call ends with
    that exception and only releases the IPDB handle afterwards: in
    particular no route is added. *)
Theorem interface_failure_ends_call vif_dict ifname netns is_default_gateway w :
  let run := _configure_l3 vif_dict ifname netns is_default_gateway w in
  exists evs,
    trace run.2 = trace w ++ evs /\
    forall pre ev rest e,
      evs = pre ++ ev :: rest ->
      is_iface_event ev = true ->
      env (trace w ++ pre) ev = Some e ->
      run.1 = Raise e /\ rest = [ReleaseIPDB].
Proof.
  intros run.
  apply (stops_at_iface_configure_l3 vif_dict ifname netns is_default_gateway w).
Qed.

(** X7.  When [_enable_ipv6] fails to normalize the path of the namespace
    file of the process, or to open that file, [self_ns_fd] is not bound
    when the [finally] block runs: the call raises [UnboundLocalError] in
    place of the exception of the failure.  Nothing else has been done: no
    namespace switch, no write. *)
Theorem enable_ipv6_unbound_fd netns w e :
  let convert := ConvertNetns (Some "/proc/self/ns/net") in
  let open := OpenFile (convert_netns_value (Some "/proc/self/ns/net")) "r" in
  env (trace w ++ [CallEnableIPv6 netns]) convert = Some e \/
  (env (trace w ++ [CallEnableIPv6 netns]) convert = None /\
   env (trace w ++ [CallEnableIPv6 netns; convert]) open = Some e) ->
  let run := _enable_ipv6 netns w in
  run.1 = Raise (UnboundLocalError "self_ns_fd") /\
  active_ns run.2 = active_ns w /\
  exists evs,
    trace run.2 = trace w ++ evs /\ evs `prefix_of` enable_ipv6_prelude netns.
Proof.
  intros convert open [Hconv|[Hconv Hopen]] run; subst run.
  - rewrite (enable_ipv6_unbound_convert _ _ _ Hconv). simpl.
    split; [done|]. split; [done|]. eexists. split; [done|].
    by exists [open].
  - rewrite (enable_ipv6_unbound_open _ _ _ Hconv Hopen). simpl.
    split; [done|]. split; [done|]. eexists. split; [done|]. done.
Qed.

(** X8.  Once [_enable_ipv6] has opened the namespace file of the process,
    the last thing it does, whatever happened in its [try] block, is one
    [setns] on that file, and it does no other.  When that [setns]
    succeeds, the process is back in the namespace it was in.  When it
    raises, its exception is the outcome of the call, in place of any
    exception of the [try] block, and the process stays where the [try]
    block left it: in the target namespace if it had got into it. *)
Theorem enable_ipv6_restore netns w :
  let prelude := enable_ipv6_prelude netns in
  let restore := Setns (NsByFile (active_ns w)) in
  let run := _enable_ipv6 netns w in
  env (trace w ++ [CallEnableIPv6 netns])
    (ConvertNetns (Some "/proc/self/ns/net")) = None ->
  env (trace w ++ [CallEnableIPv6 netns;
                   ConvertNetns (Some "/proc/self/ns/net")])
    (OpenFile (convert_netns_value (Some "/proc/self/ns/net")) "r") = None ->
  exists inside,
    trace run.2 = trace w ++ prelude ++ inside ++ [restore] /\
    Forall (fun ev => is_ipv6_event ev = true /\ is_restore ev = false) inside /\
    match env (trace w ++ prelude ++ inside) restore with
    | None => active_ns run.2 = active_ns w
    | Some e =>
        run.1 = Raise e /\
        active_ns run.2 =
          match env (trace w ++ prelude) (Setns (NsByName netns)) with
          | None => setns_target (NsByName netns) (active_ns w)
          | Some _ => active_ns w
          end
    end.
Proof.
  intros prelude restore run Hconv Hopen. subst run.
  rewrite (enable_ipv6_bound _ _ Hconv Hopen). fold prelude.
  unfold try_finally.
  destruct (enable_ipv6_inside_emits netns (after w prelude))
    as (inside & Htr & Hall & _).
  pose proof (enable_ipv6_inside_ns netns (after w prelude)) as Hns.
  destruct (enable_ipv6_inside netns (after w prelude)) as [r w3].
  simpl in Htr, Hns. exists inside. unfold setns. rewrite Htr.
  rewrite <- app_assoc. fold restore.
  destruct (env (trace w ++ prelude ++ inside) restore) as [e|]; simpl.
  - split; [by rewrite Htr, <- !app_assoc|]. split; [done|]. by split.
  - split; [by rewrite Htr, <- !app_assoc|]. by split.
Qed.

(** X9.  [_enable_ipv6] writes to [disable_ipv6] only after it has got into
    the target namespace by a [setns] that succeeded, what it writes is
    ["0"], and after the write it still attempts to go back into the
    namespace it came from. *)
Theorem enable_ipv6_writes_inside netns w :
  let run := _enable_ipv6 netns w in
  exists evs,
    trace run.2 = trace w ++ evs /\
    forall pre path data rest,
      evs = pre ++ WriteFile path data :: rest ->
      data = "0" /\
      (exists p1 p2,
         pre = p1 ++ Setns (NsByName netns) :: p2 /\
         env (trace w ++ p1) (Setns (NsByName netns)) = None) /\
      (exists mid, rest = mid ++ [Setns (NsByFile (active_ns w))]).
Proof.
  intros run. subst run.
  set (convert := ConvertNetns (Some "/proc/self/ns/net")).
  set (open := OpenFile (convert_netns_value (Some "/proc/self/ns/net")) "r").
  destruct (env (trace w ++ [CallEnableIPv6 netns]) convert) as [e|] eqn:Hconv.
  { rewrite (enable_ipv6_unbound_convert _ _ _ Hconv).
    eexists. split; [done|]. intros pre path data rest Heq.
    destruct pre as [|? [|? [|? ?]]]; done. }
  destruct (env (trace w ++ [CallEnableIPv6 netns; convert]) open) as [e|]
    eqn:Hopen.
  { rewrite (enable_ipv6_unbound_open _ _ _ Hconv Hopen).
    eexists. split; [done|]. intros pre path data rest Heq.
    destruct pre as [|? [|? [|? [|? ?]]]]; done. }
  rewrite (enable_ipv6_bound _ _ Hconv Hopen). unfold try_finally.
  destruct (enable_ipv6_inside_emits netns (after w (enable_ipv6_prelude netns)))
    as (inside & Htr & _ & Hwrite).
  destruct (enable_ipv6_inside netns (after w (enable_ipv6_prelude netns)))
    as [r w3].
  simpl in Htr, Hwrite.
  exists (enable_ipv6_prelude netns ++ inside ++
          [Setns (NsByFile (active_ns w))]).
  split.
  { unfold setns.
    destruct (env (trace w3) _); cbn [trace record enter fst snd];
      rewrite Htr, <- !app_assoc; reflexivity. }
  intros pre path data rest Heq.
  apply app_eq_app_cons in Heq as [(r1 & Heq & _)|(p2 & -> & Heq)].
  { destruct pre as [|? [|? [|? [|? ?]]]]; done. }
  apply app_eq_app_cons in Heq as [(r1 & -> & ->)|(p3 & _ & Heq)].
  2:{ destruct p3 as [|? [|? ?]]; done. }
  destruct (Hwrite _ _ _ _ eq_refl) as (-> & Henter & p4 & ->).
  split; [done|]. split; [|by exists r1].
  by exists (enable_ipv6_prelude netns), p4.
Qed.

(** X10.  Provided going back into the namespace of [self_ns_fd] does not
    itself raise, every call of [connect] leaves the process in the
    namespace it was in, whichever step raises. *)
Theorem connect_keeps_namespace vif instance_info ifname netns
    is_default_gateway container_id w :
  (forall tr ns, env tr (Setns (NsByFile ns)) = None) ->
  active_ns (connect vif instance_info ifname netns is_default_gateway
               container_id w).2 = active_ns w.
Proof.
  intros Hrestore.
  destruct (connect_cases vif instance_info ifname netns is_default_gateway
              container_id w)
    as [(e & _ & ->)|[(e & _ & _ & ->)|[(e & _ & ->)|[(e & _ & ->)|
        [(e & logs & _ & _ & ->)|[(logs & _ & _ & ->)|
        [(e & _ & _ & ->)|(_ & _ & ->)]]]]]]]; try done.
  by rewrite (keeps_ns_configure_l3 Hrestore).
Qed.

(** X11.  In every call of [connect], the additions of addresses, the
    commit and the additions of routes are the first ones of the plan of
    [_configure_l3] for the snapshot of the VIF.  When the call returns,
    either the L3 policy said yes and all of the plan has been carried out,
    or it said no and none of it has. *)
Theorem connect_follows_plan vif instance_info ifname netns is_default_gateway
    container_id w :
  let subnets := network_subnets (vd_network (osvif_vif_to_dict_value vif)) in
  let plan := l3_plan ifname subnets is_default_gateway in
  let run :=
    connect vif instance_info ifname netns is_default_gateway container_id w in
  exists evs,
    trace run.2 = trace w ++ evs /\
    List.filter is_work evs `prefix_of` plan /\
    (returned run.1 = true ->
     List.filter is_work evs =
     match (_need_configure_l3 vif w).1 with
     | Ok true => plan
     | _ => []
     end).
Proof.
  intros subnets plan run.
  destruct (need_configure_l3_run vif) as (r & logs' & Hneed & _ & _).
  rewrite Hneed. simpl.
  destruct (connect_cases vif instance_info ifname netns is_default_gateway
              container_id w)
    as [(e & _ & Hrun)|[(e & _ & _ & Hrun)|[(e & _ & Hrun)|[(e & _ & Hrun)|
        [(e & logs & _ & Hl & Hrun)|[(logs & Hn & Hl & Hrun)|
        [(e & _ & _ & Hrun)|(Hn & _ & Hrun)]]]]]]];
    fold run in Hrun; rewrite Hrun.
  1-4,7: simpl; eexists; (split; [done|]); simpl;
         (split; [apply prefix_nil|done]).
  - simpl. eexists. split; [done|]. simpl. rewrite (logs_no_work _ Hl).
    split; [apply prefix_nil|done].
  - simpl. eexists. split; [done|]. simpl. rewrite (logs_no_work _ Hl).
    split; [apply prefix_nil|]. intros _.
    rewrite Hneed in Hn. by injection Hn as ->.
  - rewrite Hneed in Hn. injection Hn as -> _.
    set (bound := [ConvertNetns netns; _; _; _]).
    destruct (follows_plan_configure_l3 (osvif_vif_to_dict_value vif) ifname
                (convert_netns_value netns) is_default_gateway
                (after w (bound ++ [OsvifVifToDict vif])))
      as (evs & Htr & Hpre & Hall).
    exists ((bound ++ [OsvifVifToDict vif]) ++ evs). split.
    + rewrite Htr. simpl. by rewrite <- app_assoc.
    + rewrite List.filter_app. simpl. done.
Qed.

End Binding.

(** ** The claims on sample inputs *)

(** C1, as stated, fails: nothing is registered for ["VIFBridge"], the
    resolution raises, and [os_vif.plug] has not been called. *)
Lemma unresolved_driver_without_plug :
  let vif := vif_bridge [subnet_v4] in
  let run :=
    connect env_ok ∅ ∅ [] ∅ id snapshot vif "info" "eth0" sample_netns true
      None world0 in
  run.1 = Raise (NoMatches "zun.cni.binding" "VIFBridge") /\
  trace run.2 =
    [ConvertNetns sample_netns; DriverManager "zun.cni.binding" "VIFBridge"] /\
  Plug vif "info" ∉ trace run.2.
Proof.
  intros vif run. split; [reflexivity|]. split; [reflexivity|].
  change (trace run.2)
    with [ConvertNetns sample_netns; DriverManager "zun.cni.binding" "VIFBridge"].
  intros Hin. apply list_elem_of_In in Hin. simpl in Hin.
  destruct Hin as [H|[H|[]]]; discriminate H.
Qed.

Lemma unresolved_driver_ends_connect_witness :
  connect env_ok ∅ ∅ [] ∅ id snapshot (vif_bridge [subnet_v4]) "info" "eth0"
    sample_netns true None world0 =
  (Raise (NoMatches _BINDING_NAMESPACE "VIFBridge"),
   after world0
     [ConvertNetns sample_netns; DriverManager _BINDING_NAMESPACE "VIFBridge"]).
Proof.
  apply (unresolved_driver_ends_connect env_ok ∅ ∅ [] ∅ id snapshot
           (vif_bridge [subnet_v4])).
  - apply not_elem_of_empty.
  - reflexivity.
Defined.

(** C2, as stated, fails: with two IPv6 subnets [_enable_ipv6] is entered
    twice in one call. *)
Lemma enable_ipv6_twice :
  let entered :=
    count_events is_enable_ipv6
      (trace (_configure_l3 env_ok id
                (mkVifDict (mkNetwork [subnet_v6; subnet_v6'])) "eth0"
                sample_netns true world0).2) in
  entered = 2%nat /\ ~ (entered <= 1)%nat.
Proof. vm_compute. split; [reflexivity|lia]. Qed.

(** C3, as stated, fails: with two subnets that have a gateway, [connect]
    asks for a default route twice. *)
Lemma default_route_twice :
  let asked :=
    count_events is_default_route_add
      (trace (connect env_ok ∅ ∅ [] bridge_plugins id snapshot
                (vif_bridge [subnet_v4; subnet_v6]) "info" "eth0" sample_netns
                true None world0).2) in
  asked = 2%nat /\ ~ (asked <= 1)%nat.
Proof. vm_compute. split; [reflexivity|lia]. Qed.

(** C4, as stated, fails: on an IPv6 subnet [_enable_ipv6] is entered, the
    write to [disable_ipv6] succeeds, and the [setns] of the [finally] block
    is refused; the call raises and the process stays in the target
    namespace. *)
Lemma namespace_not_restored :
  let run :=
    _configure_l3 env_way_back_refused id (mkVifDict (mkNetwork [subnet_v6]))
      "eth0" sample_netns true world0 in
  count_events is_enable_ipv6 (trace run.2) = 1%nat /\
  run.1 = Raise (OtherError "OSError") /\
  active_ns world0 = HostNs /\
  active_ns run.2 = NamedNs "/proc/4242/ns/net" /\
  active_ns run.2 <> active_ns world0.
Proof.
  intros run.
  split; [vm_compute; reflexivity|]. split; [vm_compute; reflexivity|].
  split; [reflexivity|]. split; [vm_compute; reflexivity|].
  vm_compute. discriminate.
Qed.

(** C4, as amended, where the write to [disable_ipv6] is refused: the call
    raises, and the process is back in its namespace. *)
Lemma namespace_restored_witness :
  let run :=
    _configure_l3 env_write_refused id (mkVifDict (mkNetwork [subnet_v6]))
      "eth0" sample_netns true world0 in
  (forall tr ns, env_write_refused tr (Setns (NsByFile ns)) = None) /\
  run.1 = Raise (OtherError "PermissionError") /\
  Setns (NsByName sample_netns) ∈ trace run.2 /\
  active_ns run.2 = active_ns world0.
Proof.
  intros run. split; [intros tr ns; reflexivity|].
  split; [vm_compute; reflexivity|]. split.
  - apply list_elem_of_In. vm_compute. tauto.
  - apply (namespace_restored env_write_refused id).
    intros tr ns. reflexivity.
Defined.

(** C5 where every default route exists already: the call returns. *)
Lemma route_failures_witness :
  (_configure_l3 env_default_exists id
     (mkVifDict (mkNetwork [subnet_v4; subnet_v6])) "eth0" sample_netns true
     world0).1 = Ok tt.
Proof.
  destruct (route_failures env_default_exists id
              (mkVifDict (mkNetwork [subnet_v4; subnet_v6])) "eth0"
              sample_netns true world0) as (evs & _ & _ & _ & _ & H).
  apply H. intros tr ev e. destruct ev; simpl; try discriminate.
  intros [= <-]. split; reflexivity.
Defined.

Lemma userspace_driver_no_l3_witness :
  (forall w, exists fmt,
     _need_configure_l3 physnet_table driver_table userspace_drivers
       (vif_sriov [subnet_v4]) w =
     (Ok false, after w [Log LInfo fmt [LVif (vif_sriov [subnet_v4])]])) /\
  (forall instance_info ifname netns is_default_gateway container_id w,
     exists evs,
       trace (connect env_ok physnet_table driver_table userspace_drivers ∅
                id snapshot (vif_sriov [subnet_v4]) instance_info ifname
                netns is_default_gateway container_id w).2 = trace w ++ evs /\
       Forall (fun ev => is_l3_event ev = false) evs).
Proof.
  apply (userspace_driver_no_l3 env_ok physnet_table driver_table
           userspace_drivers ∅ id snapshot (vif_sriov [subnet_v4])
           "physnet1" "intel_vf" "vfio-pci").
  - reflexivity.
  - vm_compute. reflexivity.
  - vm_compute. reflexivity.
  - left.
Defined.

Lemma missing_mapping_no_l3_witness :
  missing_mapping physnet_table ∅ (vif_sriov [subnet_v4]) "intel_vf" /\
  (forall w, exists fmt,
     _need_configure_l3 physnet_table ∅ userspace_drivers
       (vif_sriov [subnet_v4]) w =
     (Raise (KeyError "intel_vf"),
      after w [Log LException fmt [LStr "intel_vf"]])).
Proof.
  assert (missing_mapping physnet_table ∅ (vif_sriov [subnet_v4]) "intel_vf")
    as Hmiss.
  { exists "physnet1". split; [reflexivity|]. right. exists "intel_vf".
    split; [vm_compute; reflexivity|]. split; [apply lookup_empty|reflexivity]. }
  split; [exact Hmiss|].
  apply (missing_mapping_no_l3 env_ok physnet_table ∅ userspace_drivers
           bridge_plugins id snapshot (vif_sriov [subnet_v4]) "intel_vf" Hmiss).
Defined.

(** C2 on an IPv4 subnet followed by an IPv6 subnet: the address added
    before [_enable_ipv6] is entered is the IPv4 one. *)
Lemma enable_ipv6_per_ipv6_subnet_witness :
  of_non_ipv6_subnet [subnet_v4; subnet_v6] "10.0.0.5/24".
Proof.
  destruct (enable_ipv6_per_ipv6_subnet env_ok id
              (mkVifDict (mkNetwork [subnet_v4; subnet_v6])) "eth0"
              sample_netns true world0) as (evs & Htr & _ & _ & H).
  change (trace world0 ++ evs) with evs in Htr.
  apply (H (take 5 evs) (drop 5 evs) "eth0").
  - symmetry. apply take_drop.
  - rewrite <- Htr. vm_compute. reflexivity.
  - rewrite <- Htr. apply list_elem_of_In. vm_compute. tauto.
Defined.

(** C10 on one subnet with an address, a route and a gateway: when the
    route is added, the address has been added and committed. *)
Lemma addresses_before_routes_witness :
  let evs :=
    trace (_configure_l3 env_ok id (mkVifDict (mkNetwork [subnet_v4])) "eth0"
             sample_netns true world0).2 in
  evs !! 6%nat = Some (RouteAdd "10.0.0.1" "192.168.0.0/16") /\
  List.filter is_add_ip (take 6 evs) = [AddIp "eth0" "10.0.0.5/24"] /\
  IfaceCommit "eth0" ∈ take 6 evs.
Proof.
  intros evs. split; [vm_compute; reflexivity|].
  destruct (addresses_before_routes env_ok id
              (mkVifDict (mkNetwork [subnet_v4])) "eth0" sample_netns true
              world0) as (evs' & Htr & H).
  change (evs = evs') in Htr. subst evs'.
  destruct (H (take 6 evs) (RouteAdd "10.0.0.1" "192.168.0.0/16")
              (drop 7 evs)) as (H1 & H2 & _).
  - vm_compute. reflexivity.
  - reflexivity.
  - split; [|exact H2]. rewrite H1. vm_compute. reflexivity.
Defined.


(** ** The further properties on sample inputs *)

Lemma configure_l3_no_subnets_witness :
  exists evs,
    trace (_configure_l3 env_ok id (mkVifDict (mkNetwork [])) "eth0"
             sample_netns true world0).2 = trace world0 ++ evs /\
    List.filter is_work evs `prefix_of` [IfaceCommit "eth0"] /\
    Forall (fun ev => is_ipv6_event ev = false) evs.
Proof.
  apply (configure_l3_no_subnets env_ok id (mkVifDict (mkNetwork [])) "eth0"
           sample_netns true world0).
  reflexivity.
Defined.

(** X7 where the namespace file cannot be opened: [UnboundLocalError] is
    raised in place of [OSError]. *)
Lemma enable_ipv6_unbound_fd_witness :
  let run := _enable_ipv6 env_open_refused id sample_netns world0 in
  run.1 = Raise (UnboundLocalError "self_ns_fd") /\
  active_ns run.2 = active_ns world0 /\
  exists evs,
    trace run.2 = trace world0 ++ evs /\
    evs `prefix_of` enable_ipv6_prelude id sample_netns.
Proof.
  apply (enable_ipv6_unbound_fd env_open_refused id sample_netns world0
           (OtherError "OSError")).
  right. split; reflexivity.
Defined.

(** X8 where the write and the way back are refused: the call raises the
    exception of the [setns], and the process stays in the target
    namespace. *)
Lemma enable_ipv6_restore_witness :
  let run := _enable_ipv6 env_restore_refused id sample_netns world0 in
  run.1 = Raise (OtherError "OSError") /\
  active_ns run.2 = NamedNs "/proc/4242/ns/net".
Proof.
  intros run.
  destruct (enable_ipv6_restore env_restore_refused id sample_netns world0
              eq_refl eq_refl) as (inside & Htr & _ & H).
  change (env_restore_refused
            (trace world0 ++ enable_ipv6_prelude id sample_netns ++ inside)
            (Setns (NsByFile (active_ns world0))))
    with (Some (OtherError "OSError")) in H.
  exact H.
Defined.

Lemma connect_keeps_namespace_witness :
  active_ns (connect env_write_refused ∅ ∅ [] bridge_plugins id snapshot
               (vif_bridge [subnet_v4; subnet_v6]) "info" "eth0" sample_netns
               true None world0).2 = active_ns world0.
Proof.
  apply (connect_keeps_namespace env_write_refused ∅ ∅ [] bridge_plugins id
           snapshot).
  intros tr ns. reflexivity.
Defined.

